(** * SPICE: the spectrum emulator of [spice.spectra] and
      [spectrum_integrator.spectrum_mlp]

    A shallow embedding of the two Python modules and the properties of
    their parameter scaler, overabundance encoder, wavelength frequency
    encoder, batched predictors and velocity shifts.

    Conventions.
    - A [jnp.float32] is a real number ([R]); rounding, overflow and nan
      are not modelled.  The one exception is the parameter scaler, which
      is embedded a second time, in IEEE 754 arithmetic ([Ieee]), where its
      exact values are settled.
    - A [jnp.array] is an [ndarray]: a scalar or a stack of arrays along
      axis 0, so that the rank of an argument is a run-time fact, as in
      Python.
    - A call either returns ([Ok]) or raises ([Raise]).
    - The weight blob [SpectrumMLP_wave_DI.bin] is not part of the sources:
      the loaded weights are a parameter [W] of every predictor.
    - [spectrum_mlp.py] annotates [OVERABUNDANCES] with [List], which it
      does not import; the embedding takes the module as loaded. *)

From Stdlib Require Import Reals Lra Lia String List ZArith SpecFloat.
From stdpp Require Import base list strings.
Import ListNotations.

Open Scope R_scope.

Set Warnings "-register-all".

(** ** Python outcomes *)

Inductive exn : Type :=
| ValueError (msg : string)
    (* [raise ValueError(msg)] written in the source *)
| TypeError (msg : string)
    (* a call with the wrong number of positional arguments *)
| ShapeError (what : string)
    (* jax or flax rejecting the ranks or sizes of its arguments; [what]
       abbreviates the library's message *)
| OffAnnotation.
    (* an argument annotated [jnp.float32] received an array of rank > 0:
       outside the embedding *)

Inductive result (A : Type) : Type :=
| Ok (a : A)
| Raise (e : exn).
Arguments Ok {A} a.
Arguments Raise {A} e.

#[global] Instance result_ret : MRet result := @Ok.
#[global] Instance result_bind : MBind result := fun A B f m =>
  match m with Ok a => f a | Raise e => Raise e end.
#[global] Instance result_fmap : FMap result := fun A B f m =>
  match m with Ok a => Ok (f a) | Raise e => Raise e end.

(** ** The part of [jax.numpy] the modules use *)

Module Jnp.

Inductive ndarray : Type :=
| scalar (x : R)
| stack (rows : list ndarray).

(** A 1-d array and a 2-d array built from their entries. *)
Definition vec (xs : list R) : ndarray := stack (scalar <$> xs).
Definition mat (xss : list (list R)) : ndarray := stack (vec <$> xss).

Definition as_scalar (a : ndarray) : option R :=
  match a with scalar x => Some x | stack _ => None end.

(** [Some xs] exactly on the 1-d arrays. *)
Definition as_vector (a : ndarray) : option (list R) :=
  match a with
  | scalar _ => None
  | stack rows => mapM as_scalar rows
  end.

(** Elementwise application of a unary function ([jnp.log10], [1 - a],
    [a + s] for a scalar [s]). *)
Fixpoint amap (f : R -> R) (a : ndarray) : ndarray :=
  match a with
  | scalar x => scalar (f x)
  | stack rows => stack (map (amap f) rows)
  end.

(** The entries in row-major order; [a.flatten()] is the 1-d array of
    them. *)
Fixpoint entries (a : ndarray) : list R :=
  match a with
  | scalar x => [x]
  | stack rows => flat_map entries rows
  end.

Definition flatten (a : ndarray) : ndarray := vec (entries a).

(** [jnp.log10]; on a positive real it is the base-10 logarithm. *)
Definition log10r (x : R) : R := ln x / ln 10.
Definition log10 (a : ndarray) : ndarray := amap log10r a.

(** [jnp.zeros((n,))] and [a.at[i].set(v)] on a 1-d array; an index out of
    range leaves the array as it is. *)
Definition zeros (n : nat) : list R := replicate n 0.
Definition at_set (a : list R) (i : nat) (v : R) : list R := <[i := v]> a.

(** [jnp.linspace(start, stop, num)], end point included. *)
Definition linspace (start stop : R) (num : nat) : list R :=
  match num with
  | O => []
  | S O => [start]
  | S (S _ as d) =>
      map (fun i => start + INR i * ((stop - start) / INR d)) (seq 0 num)
  end.

(** [jnp.logspace(start, stop, num)]: base 10 raised to [linspace]. *)
Definition logspace (start stop : R) (num : nat) : list R :=
  map (Rpower 10) (linspace start stop num).

(** [jnp.hstack([a, b])] for a 1-d [b]: [a] goes through [atleast_1d];
    when [a] has rank 2 or more the concatenation is along axis 1 and the
    ranks disagree. *)
Definition hstack (a : ndarray) (b : list R) : result (list R) :=
  match a with
  | scalar x => Ok (x :: b)
  | stack _ =>
      match as_vector a with
      | Some xs => Ok (xs ++ b)
      | None => Raise (ShapeError "hstack: ranks differ")
      end
  end.

(** [a.reshape((-1, n))]: the entries in rows of [n]; the [-1] cannot be
    solved for when [n] is 0 or does not divide the number of entries. *)
Fixpoint chunks (fuel n : nat) (xs : list R) : list (list R) :=
  match fuel, xs with
  | O, _ | _, [] => []
  | S fuel', _ => take n xs :: chunks fuel' n (drop n xs)
  end.

Definition reshape_rows (n : nat) (a : ndarray) : result ndarray :=
  let xs := entries a in
  match n with
  | O => Raise (ShapeError "reshape: cannot infer -1")
  | S _ =>
      if (length xs mod n =? 0)%nat
      then Ok (mat (chunks (length xs) n xs))
      else Raise (ShapeError "reshape: size mismatch")
  end.

(** *** [jax.vmap]

    Only [in_axes] entries 0 and [None] occur in the sources. Every mapped
    argument must have rank at least 1 and all mapped axes the same size;
    both are checked before the function is called. The outputs are
    stacked along axis 0 ([out_axes=0]). [jit] does not change the result
    of a call and is left out.

    The body runs once per row here; jax traces it once even for a mapped
    axis of size 0, so an error of the body on an empty batch is not
    reproduced. *)
Inductive in_axis : Type := Ax0 | AxNone.

Inductive varg : Type :=
| Mapped (rows : list ndarray)
| Bcast (a : ndarray).

Definition in_arg (ax : in_axis) (a : ndarray) : result varg :=
  match ax, a with
  | AxNone, _ => Ok (Bcast a)
  | Ax0, stack rows => Ok (Mapped rows)
  | Ax0, scalar _ => Raise (ShapeError "vmap: mapped argument of rank 0")
  end.

Definition mapped_size (v : varg) : option nat :=
  match v with Mapped rows => Some (length rows) | Bcast _ => None end.

Definition row_of (i : nat) (v : varg) : ndarray :=
  match v with
  | Mapped rows => nth i rows (scalar 0)
  | Bcast a => a
  end.

Fixpoint in_args (axes : list in_axis) (args : list ndarray)
  : result (list varg) :=
  match axes, args with
  | [], [] => Ok []
  | ax :: axes', a :: args' =>
      v ← in_arg ax a; vs ← in_args axes' args'; Ok (v :: vs)
  | _, _ => Raise (ShapeError "vmap: in_axes does not match the arguments")
  end.

Definition vmap (f : list ndarray -> result ndarray)
    (axes : list in_axis) (args : list ndarray) : result ndarray :=
  vs ← in_args axes args;
  match omap mapped_size vs with
  | [] => Raise (ShapeError "vmap: no mapped argument")
  | n :: ns =>
      if forallb (Nat.eqb n) ns
      then stack <$> mapM (fun i => f (map (row_of i) vs)) (seq 0 n)
      else Raise (ShapeError "vmap: inconsistent sizes of the mapped axes")
  end.

(** Python call conventions for functions of two and three arrays. *)
Definition call2 (f : ndarray -> ndarray -> result ndarray)
    (args : list ndarray) : result ndarray :=
  match args with
  | [a; b] => f a b
  | _ => Raise (TypeError "positional arguments")
  end.

Definition call3 (f : ndarray -> ndarray -> ndarray -> result ndarray)
    (args : list ndarray) : result ndarray :=
  match args with
  | [a; b; c] => f a b c
  | _ => Raise (TypeError "positional arguments")
  end.

Definition vmap2 (f : ndarray -> ndarray -> result ndarray)
    (ax1 ax2 : in_axis) (a b : ndarray) : result ndarray :=
  vmap (call2 f) [ax1; ax2] [a; b].

Definition vmap3 (f : ndarray -> ndarray -> ndarray -> result ndarray)
    (ax1 ax2 ax3 : in_axis) (a b c : ndarray) : result ndarray :=
  vmap (call3 f) [ax1; ax2; ax3] [a; b; c].

(** The shape of a rectangular array; [None] on a ragged one. An empty
    stack has shape [(0,)]. *)
Fixpoint shape (a : ndarray) : option (list nat) :=
  match a with
  | scalar _ => Some []
  | stack rows =>
      match map shape rows with
      | [] => Some [O]
      | Some s :: ss =>
          if forallb (fun s' => bool_decide (s' = Some s)) ss
          then Some (length rows :: s) else None
      | None :: _ => None
      end
  end.

End Jnp.
Export Jnp.

(** ** The activations and the dense layer of [flax.linen] *)

Module Nn.

(** [nn.gelu], whose default is the tanh approximation. *)
Definition gelu (x : R) : R :=
  x * (0.5 * (1 + tanh (sqrt (2 / PI) * (x + 0.044715 * x ^ 3)))).

Definition sigmoid (x : R) : R := 1 / (1 + exp (- x)).

(** The parameters of one [nn.Dense]: a kernel of shape (inputs, features),
    stored by rows, and a bias of shape (features,). *)
Record dense_params : Type := {
  kernel : list (list R);
  bias : list R
}.

Definition dot (x y : list R) : R := foldr Rplus 0 (zip_with Rmult x y).

Definition column (j : nat) (k : list (list R)) : list R :=
  map (fun row => nth j row 0) k.

(** Does the stored layer have the shape that [nn.Dense(features)] declares
    on an input of [n] entries? *)
Definition dense_shape_ok (n features : nat) (p : dense_params) : bool :=
  (length (kernel p) =? n)%nat
  && forallb (fun row => (length row =? features)%nat) (kernel p)
  && (length (bias p) =? features)%nat.

(** [x @ kernel + bias], entry by entry. *)
Definition dense_out (features : nat) (p : dense_params) (x : list R)
  : list R :=
  map (fun j => dot x (column j (kernel p)) + nth j (bias p) 0)
    (seq 0 features).

(** [nn.Dense(features)(x)] on a 1-d input; flax raises
    [ScopeParamShapeError] when the stored parameters have another shape. *)
Definition Dense (features : nat) (p : dense_params) (x : list R)
  : result (list R) :=
  if dense_shape_ok (length x) features p
  then Ok (dense_out features p x)
  else Raise (ShapeError "Dense: ScopeParamShapeError").

End Nn.
Export Nn.

(** ** What the two modules share (lines 12 to 125 of both files) *)

Definition c : R := 299792.458.

Definition OVERABUNDANCES : list string :=
  ["Mn"; "Fe"; "Si"; "Ca"; "C"; "N"; "O"; "Hg"]%string.

Definition min_p : list R :=
  [3.845098; 3.5; 0.0; -1.0; -3.0; -3.0; -3.0; -3.0; -3.0; -3.0; -3.0; -3.0].
Definition max_p : list R :=
  [3.929419; 5.0; 10.0; 0.0; 3.0; 3.0; 3.0; 3.0; 3.0; 3.0; 3.0; 3.0].

(** [min_p[i]] and [max_p[i]] for the indices the scaler writes out. *)
Definition idx (l : list R) (i : nat) : R := nth i l 0.

(** The returned tuple is the list of its twelve components. *)
Definition scale_spectra_parameters
    (log_teff logg vmic me a_Mn a_Fe a_Si a_Ca a_C a_N a_O a_Hg : R)
  : list R :=
  let log_teff := (log_teff - idx min_p 0) / (idx max_p 0 - idx min_p 0) in
  let logg := (logg - idx min_p 1) / (idx max_p 1 - idx min_p 1) in
  let vmic := (vmic - idx min_p 2) / (idx max_p 2 - idx min_p 2) in
  let me := (me - idx min_p 3) / (idx max_p 3 - idx min_p 3) in
  let a_Mn := (a_Mn - idx min_p 4) / (idx max_p 4 - idx min_p 4) in
  let a_Fe := (a_Fe - idx min_p 5) / (idx max_p 5 - idx min_p 5) in
  let a_Si := (a_Si - idx min_p 6) / (idx max_p 6 - idx min_p 6) in
  let a_Ca := (a_Ca - idx min_p 7) / (idx max_p 7 - idx min_p 7) in
  let a_C := (a_C - idx min_p 8) / (idx max_p 8 - idx min_p 8) in
  let a_N := (a_N - idx min_p 9) / (idx max_p 9 - idx min_p 9) in
  let a_O := (a_O - idx min_p 10) / (idx max_p 10 - idx min_p 10) in
  let a_Hg := (a_Hg - idx min_p 11) / (idx max_p 11 - idx min_p 11) in
  [log_teff; logg; vmic; me; a_Mn; a_Fe; a_Si; a_Ca; a_C; a_N; a_O; a_Hg].

(** [operator.indexOf]: the first index of [x], or a [ValueError]. *)
Fixpoint indexOf (l : list string) (x : string) : result nat :=
  match l with
  | [] => Raise (ValueError "sequence.index(x): x not in sequence")
  | y :: l' => if bool_decide (y = x) then Ok O else S <$> indexOf l' x
  end.

(** [str] of a list of strings none of which holds a quote. *)
Definition py_str_list (l : list string) : string :=
  ("[" ++ String.concat ", " (map (fun s => "'" ++ s ++ "'") l) ++ "]")%string.

Definition generate_spectrum_overabundance_params
    (teff logg vmic me abundance : R) (element : string) : result ndarray :=
  if negb (bool_decide (element ∈ OVERABUNDANCES)) then
    Raise (ValueError ("Element symbol must be one of "
                       ++ py_str_list OVERABUNDANCES ++ "."))
  else
    element_index ← indexOf OVERABUNDANCES element;
    let input_params := zeros (length OVERABUNDANCES) in
    match at_set input_params element_index abundance with
    | [a_Mn; a_Fe; a_Si; a_Ca; a_C; a_N; a_O; a_Hg] =>
        Ok (vec (scale_spectra_parameters (log10r teff) logg vmic me
                   a_Mn a_Fe a_Si a_Ca a_C a_N a_O a_Hg))
    | _ => Raise (TypeError "positional arguments")
    end.

Definition frequency_encoding (x min_period max_period : R) (dimension : nat)
  : list R :=
  let periods :=
    logspace (log10r min_period) (log10r max_period) dimension in
  map (fun period => sin (2 * PI / period * x)) periods.

(** The weights loaded from the blob: one [dense_params] per entry of
    [features], in the order [Dense_0], [Dense_1], ... *)
Definition weights : Type := list dense_params.

Fixpoint SpectrumMLP_layers (features : list nat) (W : weights) (x : list R)
  : result (list R) :=
  match features, W with
  | [feat], [p] =>
      y ← Dense feat p x; Ok (map (fun z => 1.0 - sigmoid z) y)
  | feat :: features', p :: W' =>
      y ← Dense feat p x; SpectrumMLP_layers features' W' (map gelu y)
  | _, _ => Raise (ShapeError "SpectrumMLP: parameters do not match features")
  end.

(** [SpectrumMLP.__call__] *)
Definition SpectrumMLP (features : list nat) (W : weights)
    (parameters : ndarray) (log_wave : R) : result ndarray :=
  let enc_w := frequency_encoding log_wave 1e-7 0.05 64 in
  x ← hstack parameters enc_w;
  vec <$> SpectrumMLP_layers features W x.

Definition architecture : list nat := [512; 512; 512; 1]%nat.

(** [model.apply(params, spectrum_parameters, log_wave)] for the loaded
    [params]; the wavelength is annotated [jnp.float32]. *)
Definition model_apply (W : weights) (spectrum_parameters log_wave : ndarray)
  : result ndarray :=
  match as_scalar log_wave with
  | Some x => SpectrumMLP architecture W spectrum_parameters x
  | None => Raise OffAnnotation
  end.

(** ** [src/spice/spectra.py], lines 136 to 158 *)

Module Spice.

(** [__predict_spectrum]: the network mapped over axis 0 of the
    log-wavelengths, the parameters shared. *)
Definition __predict_spectrum (W : weights)
    (spectrum_parameters log_wavelengths : ndarray) : result ndarray :=
  vmap2 (model_apply W) AxNone Ax0 spectrum_parameters log_wavelengths.

Definition predict_spectrum (W : weights)
    (spectrum_parameters wavelengths : ndarray) : result ndarray :=
  flatten <$> __predict_spectrum W spectrum_parameters (log10 wavelengths).

Definition predict_spectra (W : weights) (spectrum_parameters wavelengths : ndarray)
  : result ndarray :=
  vmap2 (predict_spectrum W) Ax0 Ax0 spectrum_parameters wavelengths.

Definition redshift_wavelengths (wavelengths : ndarray) (radial_velocity : R)
  : ndarray :=
  amap (fun w => w * (1 + radial_velocity / c)) wavelengths.

Definition redshift_wavelengths_vec (wavelengths radial_velocities : ndarray)
  : result ndarray :=
  vmap2 (fun wavelengths radial_velocity =>
           match as_scalar radial_velocity with
           | Some v => Ok (redshift_wavelengths wavelengths v)
           | None => Raise OffAnnotation
           end)
        AxNone Ax0 wavelengths radial_velocities.

End Spice.

(** ** [src/spectrum_integrator/spectrum_mlp.py], lines 136 to 182 *)

Module SpectrumIntegrator.

Definition predict_spectrum (W : weights)
    (spectrum_parameters log_wavelengths : ndarray) : result ndarray :=
  vmap2 (model_apply W) AxNone Ax0 spectrum_parameters log_wavelengths.

Definition predict_spectra (W : weights)
    (spectrum_parameters log_wavelengths : ndarray) : result ndarray :=
  vmap2 (predict_spectrum W) Ax0 AxNone spectrum_parameters log_wavelengths.

Definition predict_spectrum_with_rot_velocity (W : weights)
    (params log_wave : ndarray) (rot_vel : R) : result ndarray :=
  predict_spectrum W params
    (amap (fun lw => lw + log10r (1 + rot_vel / c)) log_wave).

Definition predict_spectra_with_rot_velocity (W : weights)
    (params log_wave rot_vel : ndarray) : result ndarray :=
  vmap3 (fun params log_wave rot_vel =>
           match as_scalar rot_vel with
           | Some v => predict_spectrum_with_rot_velocity W params log_wave v
           | None => Raise OffAnnotation
           end)
        Ax0 AxNone Ax0 params log_wave rot_vel.

(** [spectra_prediction_function(wave_min, wave_max, wave_points)] returns
    the closure [predict_spectra]; here it is the function of all five
    arguments, to be applied to the first three. *)
Definition spectra_prediction_function (W : weights)
    (wave_min wave_max : R) (wave_points : nat)
  : ndarray -> ndarray -> result ndarray :=
  let log_wave := linspace (log10r wave_min) (log10r wave_max) wave_points in
  fun parameters rotation_map =>
    r ← predict_spectra_with_rot_velocity W parameters (vec log_wave)
          rotation_map;
    reshape_rows wave_points (amap (fun y => 1 - y) r).

End SpectrumIntegrator.

(** ** The scaler in the arithmetic of its arrays

    [scale_spectra_parameters] is annotated for [jnp.float32] arguments,
    and [min_p] and [max_p] are lists of Python floats (binary64).  For an
    argument [x] of dtype [t], jax evaluates [x - min_p[i]] by casting the
    Python float to [t] and subtracting in [t]; Python evaluates
    [max_p[i] - min_p[i]] in binary64; the division casts that difference to
    [t] and divides in [t].  Every operation rounds to nearest, ties to
    even.  With Python floats for arguments the whole expression is
    evaluated in binary64, which is the case [t = float64]. *)

Module Ieee.

(** A binary format of IEEE 754: its precision and exponent bound. *)
Record dtype : Type := { prec : Z; emax : Z }.

Definition float32 : dtype := {| prec := 24; emax := 128 |}.
Definition float64 : dtype := {| prec := 53; emax := 1024 |}.

Definition sub (t : dtype) : spec_float -> spec_float -> spec_float :=
  SFsub (prec t) (emax t).
Definition div (t : dtype) : spec_float -> spec_float -> spec_float :=
  SFdiv (prec t) (emax t).
Definition of_Z (t : dtype) (z : Z) : spec_float :=
  binary_normalize (prec t) (emax t) z 0 false.
Definition succ (t : dtype) : spec_float -> spec_float :=
  SFsucc (prec t) (emax t).
Definition pred (t : dtype) : spec_float -> spec_float :=
  SFpred (prec t) (emax t).

(** The cast of a binary64 value to [t]. *)
Definition astype (t : dtype) (x : spec_float) : spec_float :=
  match x with
  | S754_finite s m e => binary_round (prec t) (emax t) s m e
  | _ => x
  end.

(** The Python float that the decimal literal [n * 10^-k] denotes: the
    binary64 nearest to it, as the correctly rounded quotient of two
    integers that binary64 holds exactly. *)
Definition py_float (n : Z) (k : nat) : spec_float :=
  div float64 (of_Z float64 n) (of_Z float64 (10 ^ Z.of_nat k)).

Definition min_p : list spec_float :=
  [py_float 3845098 6; py_float 35 1; py_float 0 1; py_float (-10) 1;
   py_float (-30) 1; py_float (-30) 1; py_float (-30) 1; py_float (-30) 1;
   py_float (-30) 1; py_float (-30) 1; py_float (-30) 1; py_float (-30) 1].
Definition max_p : list spec_float :=
  [py_float 3929419 6; py_float 50 1; py_float 100 1; py_float 0 1;
   py_float 30 1; py_float 30 1; py_float 30 1; py_float 30 1;
   py_float 30 1; py_float 30 1; py_float 30 1; py_float 30 1].

Definition idx (l : list spec_float) (i : nat) : spec_float :=
  nth i l S754_nan.

Definition scale_spectra_parameters (t : dtype)
    (log_teff logg vmic me a_Mn a_Fe a_Si a_Ca a_C a_N a_O a_Hg : spec_float)
  : list spec_float :=
  let log_teff :=
    div t (sub t log_teff (astype t (idx min_p 0)))
      (astype t (sub float64 (idx max_p 0) (idx min_p 0))) in
  let logg :=
    div t (sub t logg (astype t (idx min_p 1)))
      (astype t (sub float64 (idx max_p 1) (idx min_p 1))) in
  let vmic :=
    div t (sub t vmic (astype t (idx min_p 2)))
      (astype t (sub float64 (idx max_p 2) (idx min_p 2))) in
  let me :=
    div t (sub t me (astype t (idx min_p 3)))
      (astype t (sub float64 (idx max_p 3) (idx min_p 3))) in
  let a_Mn :=
    div t (sub t a_Mn (astype t (idx min_p 4)))
      (astype t (sub float64 (idx max_p 4) (idx min_p 4))) in
  let a_Fe :=
    div t (sub t a_Fe (astype t (idx min_p 5)))
      (astype t (sub float64 (idx max_p 5) (idx min_p 5))) in
  let a_Si :=
    div t (sub t a_Si (astype t (idx min_p 6)))
      (astype t (sub float64 (idx max_p 6) (idx min_p 6))) in
  let a_Ca :=
    div t (sub t a_Ca (astype t (idx min_p 7)))
      (astype t (sub float64 (idx max_p 7) (idx min_p 7))) in
  let a_C :=
    div t (sub t a_C (astype t (idx min_p 8)))
      (astype t (sub float64 (idx max_p 8) (idx min_p 8))) in
  let a_N :=
    div t (sub t a_N (astype t (idx min_p 9)))
      (astype t (sub float64 (idx max_p 9) (idx min_p 9))) in
  let a_O :=
    div t (sub t a_O (astype t (idx min_p 10)))
      (astype t (sub float64 (idx max_p 10) (idx min_p 10))) in
  let a_Hg :=
    div t (sub t a_Hg (astype t (idx min_p 11)))
      (astype t (sub float64 (idx max_p 11) (idx min_p 11))) in
  [log_teff; logg; vmic; me; a_Mn; a_Fe; a_Si; a_Ca; a_C; a_N; a_O; a_Hg].

End Ieee.

(** * Definitions for the statements *)

(** ** The scaler and the encoder in the words of the specification *)

(** The bounds table as the specification prints it, one (min, max) pair
    per component. *)
Definition spec_bounds : list (R * R) :=
  [(3.845098, 3.929419); (3.5, 5.0); (0.0, 10.0); (-1.0, 0.0);
   (-3.0, 3.0); (-3.0, 3.0); (-3.0, 3.0); (-3.0, 3.0);
   (-3.0, 3.0); (-3.0, 3.0); (-3.0, 3.0); (-3.0, 3.0)].

(** [scaled_i = (raw_i - min_i) / (max_i - min_i)], componentwise. *)
Definition spec_scaled (raw : list R) : list R :=
  zip_with (fun x b => (x - b.1) / (b.2 - b.1)) raw spec_bounds.

(** The scaler applied to a 12-vector. *)
Definition scaler (raw : list R) : list R :=
  match raw with
  | [x0; x1; x2; x3; x4; x5; x6; x7; x8; x9; x10; x11] =>
      scale_spectra_parameters x0 x1 x2 x3 x4 x5 x6 x7 x8 x9 x10 x11
  | _ => []
  end.

(** The fixed index of each element symbol, as the specification lists
    them: Mn=0, Fe=1, Si=2, Ca=3, C=4, N=5, O=6, Hg=7. *)
Definition spec_slots : list (string * nat) :=
  [("Mn", 0); ("Fe", 1); ("Si", 2); ("Ca", 3);
   ("C", 4); ("N", 5); ("O", 6); ("Hg", 7)]%string%nat.

Definition spec_slot (element : string) : option nat :=
  snd <$> find (fun p => String.eqb p.1 element) spec_slots.

(** The message of the [ValueError] of line 88. *)
Definition element_error : string :=
  "Element symbol must be one of ['Mn', 'Fe', 'Si', 'Ca', 'C', 'N', 'O', 'Hg'].".

(** Does the message name the symbol, in the quotes that [str] of a list
    puts around it? *)
Definition names_symbol (msg s : string) : bool :=
  match String.index 0 ("'" ++ s ++ "'") msg with
  | Some _ => true
  | None => false
  end.

(** ** The periods of the frequency encoder *)

(** The 64 periods of the encoder and their closed form: a geometric
    progression from [min_period] to [max_period]. *)
Definition periods : list R := logspace (log10r 1e-7) (log10r 0.05) 64.

Definition spec_period (k : nat) : R :=
  1e-7 * Rpower (0.05 / 1e-7) (INR k / 63).

(** ** The value of the network and weights of the declared shapes *)

(** The shapes that the architecture declares for the four stored layers:
    (76, 512), (512, 512), (512, 512) and (512, 1), each with its bias. *)
Definition weights_ok (W : weights) : bool :=
  match W with
  | [d0; d1; d2; d3] =>
      dense_shape_ok 76 512 d0 && dense_shape_ok 512 512 d1
      && dense_shape_ok 512 512 d2 && dense_shape_ok 512 1 d3
  | _ => false
  end.

(** The one value that the network returns for twelve parameters and a
    log-wavelength. *)
Definition flux (W : weights) (p : list R) (lw : R) : R :=
  match W with
  | [d0; d1; d2; d3] =>
      let x := p ++ frequency_encoding lw 1e-7 0.05 64 in
      let h0 := map gelu (dense_out 512 d0 x) in
      let h1 := map gelu (dense_out 512 d1 h0) in
      let h2 := map gelu (dense_out 512 d2 h1) in
      1.0 - sigmoid (dot h2 (column 0 (kernel d3)) + nth 0 (bias d3) 0)
  | _ => 0
  end.

(** All-zero weights of the declared shapes. *)
Definition zero_dense (n features : nat) : dense_params :=
  {| kernel := replicate n (replicate features 0);
     bias := replicate features 0 |}.

Definition W0 : weights :=
  [zero_dense 76 512; zero_dense 512 512; zero_dense 512 512;
   zero_dense 512 1].

(** A layer whose kernel has a single 1, at row [i0] and column [j0], and
    whose bias is zero: output [j0] is input [i0], every other output 0. *)
Definition unit_dense (n features i0 j0 : nat) : dense_params :=
  {| kernel :=
       map (fun i =>
              map (fun j => if (i =? i0)%nat && (j =? j0)%nat then 1 else 0)
                (seq 0 features))
         (seq 0 n);
     bias := replicate features 0 |}.

(** Weights of the declared shapes under which the network is
    [1 - sigmoid (gelu (gelu (gelu e)))] for the last component [e] of the
    frequency encoding (input 75 of 76). *)
Definition W1 : weights :=
  [unit_dense 76 512 75 0; unit_dense 512 512 0 0; unit_dense 512 512 0 0;
   unit_dense 512 1 0 0].

(** The vector whose entry 0 is [a] and whose other entries are 0. *)
Definition slot0 (features : nat) (a : R) : list R :=
  map (fun j => if (j =? 0)%nat then a else 0) (seq 0 features).

(** Twelve scaled parameters in the middle of their ranges. *)
Definition p_mid : list R := replicate 12 0.5.

(** ** Arrays by shape *)

(** An (M, 1) array and an (N, M, 1) array built from their values: the
    network returns a 1-d array of one entry, and [vmap] stacks these. *)
Definition col (ys : list R) : ndarray := stack ((fun y => vec [y]) <$> ys).
Definition cube (yss : list (list R)) : ndarray := stack (col <$> yss).

(** An N-by-M array: N rows of M scalars. *)
Definition is_matrix (n m : nat) (a : ndarray) : Prop :=
  exists rows : list (list R),
    a = mat rows /\ length rows = n /\ Forall (fun r => length r = m) rows.

(** ** The batched encoder (line 97 of both files) *)

(** [vmap(generate_spectrum_overabundance_params,
          in_axes=(None, None, None, None, 0, None))]: the five arguments
    with [in_axes] [None] reach every call as they are, the abundances are
    mapped over axis 0. *)
Definition generate_spectrum_overabundance_params_vec
    (teff logg vmic me : R) (abundance : ndarray) (element : string)
  : result ndarray :=
  vmap (fun args =>
          match args with
          | [a] =>
              match as_scalar a with
              | Some x =>
                  generate_spectrum_overabundance_params teff logg vmic me x
                    element
              | None => Raise OffAnnotation
              end
          | _ => Raise (TypeError "positional arguments")
          end)
       [Ax0] [abundance].

(** ** The scaler of the specification in IEEE 754 arithmetic *)

(** The bounds table of the specification, each bound a Python float. *)
Definition ieee_bounds : list (spec_float * spec_float) :=
  [(Ieee.py_float 3845098 6, Ieee.py_float 3929419 6);
   (Ieee.py_float 35 1, Ieee.py_float 50 1);
   (Ieee.py_float 0 1, Ieee.py_float 100 1);
   (Ieee.py_float (-10) 1, Ieee.py_float 0 1);
   (Ieee.py_float (-30) 1, Ieee.py_float 30 1);
   (Ieee.py_float (-30) 1, Ieee.py_float 30 1);
   (Ieee.py_float (-30) 1, Ieee.py_float 30 1);
   (Ieee.py_float (-30) 1, Ieee.py_float 30 1);
   (Ieee.py_float (-30) 1, Ieee.py_float 30 1);
   (Ieee.py_float (-30) 1, Ieee.py_float 30 1);
   (Ieee.py_float (-30) 1, Ieee.py_float 30 1);
   (Ieee.py_float (-30) 1, Ieee.py_float 30 1)].

(** [scaled_i = (raw_i - min_i) / (max_i - min_i)], componentwise, for
    arguments of dtype [t]. *)
Definition ieee_scaled (t : Ieee.dtype) (raw : list spec_float)
  : list spec_float :=
  zip_with
    (fun x b =>
       Ieee.div t (Ieee.sub t x (Ieee.astype t b.1))
         (Ieee.astype t (Ieee.sub Ieee.float64 b.2 b.1)))
    raw ieee_bounds.

(** The scaler applied to twelve arguments of dtype [t]. *)
Definition ieee_scaler (t : Ieee.dtype) (raw : list spec_float)
  : list spec_float :=
  match raw with
  | [x0; x1; x2; x3; x4; x5; x6; x7; x8; x9; x10; x11] =>
      Ieee.scale_spectra_parameters t x0 x1 x2 x3 x4 x5 x6 x7 x8 x9 x10 x11
  | _ => []
  end.

(** 1.0 in a format, and 0.0. *)
Definition ieee_one (t : Ieee.dtype) : spec_float := Ieee.of_Z t 1.
Definition ieee_zero : spec_float := S754_zero false.

(** The float32 of the decimal [n * 10^-k]: its Python float, cast. *)
Definition f32 (n : Z) (k : nat) : spec_float :=
  Ieee.astype Ieee.float32 (Ieee.py_float n k).

(** Twelve float32 arguments above their maxima, and twelve below their
    minima. *)
Definition above_max : list spec_float :=
  [f32 40 1; f32 65 1; f32 200 1; f32 10 1; f32 90 1; f32 90 1; f32 90 1;
   f32 90 1; f32 90 1; f32 90 1; f32 90 1; f32 90 1].
Definition below_min : list spec_float :=
  [f32 38 1; f32 20 1; f32 (-100) 1; f32 (-20) 1; f32 (-90) 1; f32 (-90) 1;
   f32 (-90) 1; f32 (-90) 1; f32 (-90) 1; f32 (-90) 1; f32 (-90) 1;
   f32 (-90) 1].

(** The scaled value of a float32 abundance [a] of the first element, the
    other eleven arguments inside their ranges. *)
Definition scaled_abundance (a : spec_float) : option spec_float :=
  ieee_scaler Ieee.float32
    [f32 39 1; f32 40 1; f32 20 1; f32 (-5) 1; a; ieee_zero; ieee_zero;
     ieee_zero; ieee_zero; ieee_zero; ieee_zero; ieee_zero] !! 4%nat.

(** * Properties *)

(** ** Sequencing and [vmap] *)

Section Sequencing.
Context {A B : Type}.

Lemma mapM_Ok_map (f : A -> result B) (g : A -> B) (l : list A) :
  (forall x, In x l -> f x = Ok (g x)) -> mapM f l = Ok (map g l).
Proof.
  induction l as [|x l IH]; intros Hf; [reflexivity|].
  cbn. rewrite (Hf x) by (left; reflexivity). cbn.
  rewrite IH by (intros y Hy; apply Hf; right; exact Hy). reflexivity.
Qed.

Lemma mapM_Raise_head (f : A -> result B) (x : A) (l : list A) (e : exn) :
  f x = Raise e -> mapM f (x :: l) = Raise e.
Proof. intros Hx. cbn. rewrite Hx. reflexivity. Qed.

(** Running the body on rows 0, 1, ... of a list is mapping it over the
    list. *)
Lemma mapM_seq_rows (h : nat -> result B) (g : A -> result B) (d : A)
    (l : list A) (s : nat) :
  (forall i, (i < length l)%nat -> h (s + i)%nat = g (nth i l d)) ->
  mapM h (seq s (length l)) = mapM g l.
Proof.
  revert s. induction l as [|x l IH]; intros s Hh; [reflexivity|].
  cbn [length seq]. cbn.
  specialize (Hh O) as H0. rewrite Nat.add_0_r in H0.
  rewrite H0 by (cbn; lia). cbn [nth].
  rewrite (IH (S s)); [reflexivity|].
  intros i Hi. replace (S s + i)%nat with (s + S i)%nat by lia.
  rewrite Hh by (cbn; lia). reflexivity.
Qed.

End Sequencing.

Lemma as_vector_vec (xs : list R) : as_vector (vec xs) = Some xs.
Proof.
  unfold as_vector, vec. induction xs as [|x xs IH]; [reflexivity|].
  cbn. cbn in IH. rewrite IH. reflexivity.
Qed.

Lemma amap_vec (f : R -> R) (xs : list R) : amap f (vec xs) = vec (map f xs).
Proof.
  unfold vec. cbn. f_equal. induction xs as [|x xs IH]; [reflexivity|].
  cbn. f_equal. exact IH.
Qed.

Lemma entries_vec (xs : list R) : entries (vec xs) = xs.
Proof.
  unfold vec. cbn. induction xs as [|x xs IH]; [reflexivity|].
  cbn. f_equal. exact IH.
Qed.

Section Vmap.
Variable f : ndarray -> ndarray -> result ndarray.

Lemma vmap2_None_0 (a : ndarray) (rows : list ndarray) :
  vmap2 f AxNone Ax0 a (stack rows) = stack <$> mapM (f a) rows.
Proof.
  unfold vmap2, vmap. cbn.
  rewrite (mapM_seq_rows _ (f a) (scalar 0) rows O); [reflexivity|].
  intros i Hi. reflexivity.
Qed.

Lemma vmap2_0_None (rows : list ndarray) (b : ndarray) :
  vmap2 f Ax0 AxNone (stack rows) b = stack <$> mapM (fun r => f r b) rows.
Proof.
  unfold vmap2, vmap. cbn.
  rewrite (mapM_seq_rows _ (fun r => f r b) (scalar 0) rows O); [reflexivity|].
  intros i Hi. reflexivity.
Qed.

Lemma vmap2_0_0 (rows_a rows_b : list ndarray) :
  length rows_a = length rows_b ->
  vmap2 f Ax0 Ax0 (stack rows_a) (stack rows_b)
  = stack <$> mapM (fun ab => f ab.1 ab.2) (zip rows_a rows_b).
Proof.
  intros Hlen. unfold vmap2, vmap. cbn.
  rewrite <- Hlen, Nat.eqb_refl. cbn.
  replace (length rows_a) with (length (zip rows_a rows_b))
    by (rewrite length_zip_with; lia).
  rewrite (mapM_seq_rows _ (fun ab => f ab.1 ab.2) (scalar 0, scalar 0)
             (zip rows_a rows_b) O); [reflexivity|].
  intros i Hi. cbn.
  rewrite length_zip_with in Hi.
  assert (Hn : nth i (zip rows_a rows_b) (scalar 0, scalar 0)
               = (nth i rows_a (scalar 0), nth i rows_b (scalar 0))).
  { clear f. revert rows_b i Hlen Hi.
    induction rows_a as [|x ra IH]; intros [|y rb] i Hlen Hi;
      cbn in *; try lia.
    destruct i as [|i]; [reflexivity|]. apply IH; lia. }
  rewrite Hn. reflexivity.
Qed.

Lemma vmap2_0_0_sizes (rows_a rows_b : list ndarray) :
  length rows_a <> length rows_b ->
  vmap2 f Ax0 Ax0 (stack rows_a) (stack rows_b)
  = Raise (ShapeError "vmap: inconsistent sizes of the mapped axes").
Proof.
  intros Hlen. unfold vmap2, vmap. cbn.
  apply Nat.eqb_neq in Hlen. rewrite Hlen. reflexivity.
Qed.

End Vmap.

Section Vmap3.
Variable f : ndarray -> ndarray -> ndarray -> result ndarray.

Lemma vmap3_0_None_0 (rows_a rows_c : list ndarray) (b : ndarray) :
  length rows_a = length rows_c ->
  vmap3 f Ax0 AxNone Ax0 (stack rows_a) b (stack rows_c)
  = stack <$> mapM (fun ac => f ac.1 b ac.2) (zip rows_a rows_c).
Proof.
  intros Hlen. unfold vmap3, vmap. cbn.
  rewrite <- Hlen, Nat.eqb_refl. cbn.
  replace (length rows_a) with (length (zip rows_a rows_c))
    by (rewrite length_zip_with; lia).
  rewrite (mapM_seq_rows _ (fun ac => f ac.1 b ac.2) (scalar 0, scalar 0)
             (zip rows_a rows_c) O); [reflexivity|].
  intros i Hi. cbn.
  rewrite length_zip_with in Hi.
  assert (Hn : nth i (zip rows_a rows_c) (scalar 0, scalar 0)
               = (nth i rows_a (scalar 0), nth i rows_c (scalar 0))).
  { clear f. revert rows_c i Hlen Hi.
    induction rows_a as [|x ra IH]; intros [|y rb] i Hlen Hi;
      cbn in *; try lia.
    destruct i as [|i]; [reflexivity|]. apply IH; lia. }
  rewrite Hn. reflexivity.
Qed.

Lemma vmap3_0_None_0_sizes (rows_a rows_c : list ndarray) (b : ndarray) :
  length rows_a <> length rows_c ->
  vmap3 f Ax0 AxNone Ax0 (stack rows_a) b (stack rows_c)
  = Raise (ShapeError "vmap: inconsistent sizes of the mapped axes").
Proof.
  intros Hlen. unfold vmap3, vmap. cbn.
  apply Nat.eqb_neq in Hlen. rewrite Hlen. reflexivity.
Qed.

End Vmap3.

(** ** The parameter scaler *)

Lemma scale_spectra_parameters_spec
    (x0 x1 x2 x3 x4 x5 x6 x7 x8 x9 x10 x11 : R) :
  scale_spectra_parameters x0 x1 x2 x3 x4 x5 x6 x7 x8 x9 x10 x11
  = spec_scaled [x0; x1; x2; x3; x4; x5; x6; x7; x8; x9; x10; x11].
Proof. reflexivity. Qed.

(** C5 (amended). The scaler is the componentwise map
    [(raw_i - min_i) / (max_i - min_i)] of the bounds table, over the reals
    and in IEEE 754 arithmetic, whatever the arguments are: nothing is
    clamped, and arguments above their maxima scale above 1.0, arguments
    below their minima below 0.0.  In binary64 (Python floats for
    arguments) every minimum scales to 0.0 and every maximum to 1.0.  In
    binary32, the dtype of the annotation, every minimum scales to 0.0 and
    the maxima of components 1 to 11 to 1.0; the maximum of component 0,
    whose bounds binary32 does not hold, scales to the second float32 above
    1.0 (1 + 2^-22), and the float32 next below that maximum scales below
    1.0. *)
Theorem C5_scale_spectra_parameters :
  (forall x0 x1 x2 x3 x4 x5 x6 x7 x8 x9 x10 x11 : R,
     scale_spectra_parameters x0 x1 x2 x3 x4 x5 x6 x7 x8 x9 x10 x11
     = spec_scaled [x0; x1; x2; x3; x4; x5; x6; x7; x8; x9; x10; x11])
  /\ (forall (t : Ieee.dtype)
             (x0 x1 x2 x3 x4 x5 x6 x7 x8 x9 x10 x11 : spec_float),
        Ieee.scale_spectra_parameters t x0 x1 x2 x3 x4 x5 x6 x7 x8 x9 x10 x11
        = ieee_scaled t [x0; x1; x2; x3; x4; x5; x6; x7; x8; x9; x10; x11])
  /\ ieee_scaler Ieee.float64 Ieee.min_p = replicate 12 ieee_zero
  /\ ieee_scaler Ieee.float64 Ieee.max_p
     = replicate 12 (ieee_one Ieee.float64)
  /\ ieee_scaler Ieee.float32 (Ieee.astype Ieee.float32 <$> Ieee.min_p)
     = replicate 12 ieee_zero
  /\ ieee_scaler Ieee.float32 (Ieee.astype Ieee.float32 <$> Ieee.max_p)
     = Ieee.succ Ieee.float32 (Ieee.succ Ieee.float32 (ieee_one Ieee.float32))
       :: replicate 11 (ieee_one Ieee.float32)
  /\ (exists s,
        ieee_scaler Ieee.float32
          (Ieee.pred Ieee.float32 (f32 3929419 6)
           :: replicate 11 (ieee_one Ieee.float32))
        !! 0%nat = Some s
        /\ SFltb s (ieee_one Ieee.float32) = true)
  /\ forallb (fun s => SFltb (ieee_one Ieee.float32) s)
       (ieee_scaler Ieee.float32 above_max) = true
  /\ forallb (fun s => SFltb s ieee_zero)
       (ieee_scaler Ieee.float32 below_min) = true.
Proof.
  split; [intros; apply scale_spectra_parameters_spec|].
  split; [intros; reflexivity|].
  do 4 (split; [vm_compute; reflexivity|]).
  split; [|split; vm_compute; reflexivity].
  exists (S754_finite false 16777173 (-24)). split; vm_compute; reflexivity.
Qed.

(** With float32 arguments the twelve maxima do not scale to twelve times
    1.0. *)
Lemma C5_counterexample :
  ieee_scaler Ieee.float32 (Ieee.astype Ieee.float32 <$> Ieee.max_p)
  <> replicate 12 (ieee_one Ieee.float32).
Proof. vm_compute. discriminate. Qed.

(** ** The overabundance encoder *)

Lemma spec_slot_inv (element : string) (i : nat) :
  spec_slot element = Some i -> In (element, i) spec_slots.
Proof.
  unfold spec_slot, spec_slots. cbn [find fst].
  repeat match goal with
  | |- context [if String.eqb ?s element then _ else _] =>
      destruct (String.eqb_spec s element) as [<-|?]
  end; cbn; try discriminate; intros [= <-]; tauto.
Qed.

Lemma spec_slot_recognized (element : string) :
  element ∈ OVERABUNDANCES <-> exists i, spec_slot element = Some i.
Proof.
  split.
  - intros Hin. apply list_elem_of_In in Hin. cbn in Hin.
    repeat (destruct Hin as [<-|Hin]; [eexists; reflexivity|]).
    destruct Hin.
  - intros [i Hi]. apply spec_slot_inv in Hi. apply list_elem_of_In.
    cbn in Hi. cbn.
    repeat (destruct Hi as [[= <- <-]|Hi]; [tauto|]). destruct Hi.
Qed.

(** The encoder on a recognized symbol, slot by slot. *)
Lemma generate_spectrum_overabundance_params_slot
    (teff logg vmic me abundance : R) (element : string) (i : nat) :
  spec_slot element = Some i ->
  generate_spectrum_overabundance_params teff logg vmic me abundance element
  = Ok (vec (scaler ([log10r teff; logg; vmic; me]
                       ++ at_set (zeros 8) i abundance))).
Proof.
  intros Hi. apply spec_slot_inv in Hi. cbn in Hi.
  repeat (destruct Hi as [[= <- <-]|Hi]; [reflexivity|]). destruct Hi.
Qed.

Lemma generate_spectrum_overabundance_params_unrecognized
    (teff logg vmic me abundance : R) (element : string) :
  element ∉ OVERABUNDANCES ->
  generate_spectrum_overabundance_params teff logg vmic me abundance element
  = Raise (ValueError element_error).
Proof.
  intros Hnot. unfold generate_spectrum_overabundance_params.
  rewrite bool_decide_eq_false_2 by exact Hnot. reflexivity.
Qed.

(** C3. On a recognized symbol the encoder returns the scaler applied to
    (log10 teff, logg, vmic, metallicity, a_0 .. a_7), where the eight
    abundance slots hold the given abundance at the symbol's index and zero
    elsewhere; for Fe and 2.0 the eight slots are 0, 2, 0, 0, 0, 0, 0, 0. *)
Theorem C3_overabundance_params :
  forall (teff logg vmic me abundance : R) (element : string) (i : nat),
    spec_slot element = Some i ->
    let a := at_set (zeros 8) i abundance in
    generate_spectrum_overabundance_params teff logg vmic me abundance element
    = Ok (vec (scaler ([log10r teff; logg; vmic; me] ++ a)))
    /\ scaler ([log10r teff; logg; vmic; me] ++ a)
       = spec_scaled ([log10r teff; logg; vmic; me] ++ a)
    /\ length a = 8%nat
    /\ (forall j, (j < 8)%nat ->
          a !! j = Some (if decide (j = i) then abundance else 0))
    /\ spec_slot "Fe" = Some 1%nat
    /\ at_set (zeros 8) 1 2.0 = [0; 2.0; 0; 0; 0; 0; 0; 0].
Proof.
  intros teff logg vmic me abundance element i Hi a.
  split; [apply generate_spectrum_overabundance_params_slot; exact Hi|].
  assert (Hlt : (i < 8)%nat).
  { apply spec_slot_inv in Hi. cbn in Hi.
    repeat (destruct Hi as [[= <- <-]|Hi]; [lia|]). destruct Hi. }
  split.
  { subst a. do 8 (destruct i as [|i]; [reflexivity|]). lia. }
  split.
  { subst a. unfold at_set, zeros.
    rewrite length_insert, length_replicate. reflexivity. }
  split; [|split; reflexivity].
  intros j Hj. subst a. unfold at_set, zeros.
  destruct (decide (j = i)) as [->|Hne].
  - apply list_lookup_insert_eq. rewrite length_replicate. exact Hlt.
  - rewrite list_lookup_insert_ne by congruence.
    apply lookup_replicate_2. exact Hj.
Qed.

Lemma C3_overabundance_params_witness :
  spec_slot "Fe" = Some 1%nat
  /\ generate_spectrum_overabundance_params 7500 4.0 2.0 (-0.5) 2.0 "Fe"
     = Ok (vec (scaler ([log10r 7500; 4.0; 2.0; -0.5]
                          ++ [0; 2.0; 0; 0; 0; 0; 0; 0]))).
Proof.
  split; [reflexivity|].
  apply (C3_overabundance_params 7500 4.0 2.0 (-0.5) 2.0 "Fe" 1). reflexivity.
Defined.

(** C4. On a symbol outside the recognized set the encoder raises a
    [ValueError] whatever the numeric arguments are, nothing else being
    returned; the message names each of the eight valid symbols; on a
    recognized symbol it returns an array. *)
Theorem C4_invalid_element :
  forall (element : string) (teff logg vmic me abundance : R),
    (element ∉ OVERABUNDANCES ->
       generate_spectrum_overabundance_params teff logg vmic me abundance
         element = Raise (ValueError element_error))
    /\ (element ∈ OVERABUNDANCES ->
          exists v, generate_spectrum_overabundance_params teff logg vmic me
                      abundance element = Ok (vec v)
                    /\ length v = 12%nat)
    /\ element_error
       = ("Element symbol must be one of " ++ py_str_list OVERABUNDANCES
            ++ ".")%string
    /\ forallb (names_symbol element_error) OVERABUNDANCES = true.
Proof.
  intros element teff logg vmic me abundance.
  split; [apply generate_spectrum_overabundance_params_unrecognized|].
  split; [|split; reflexivity].
  intros Hin. apply spec_slot_recognized in Hin as [i Hi].
  eexists. split.
  - apply generate_spectrum_overabundance_params_slot. exact Hi.
  - apply spec_slot_inv in Hi. cbn in Hi.
    repeat (destruct Hi as [[= <- <-]|Hi]; [reflexivity|]). destruct Hi.
Qed.

Lemma C4_invalid_element_witness :
  ("Xx" ∉ OVERABUNDANCES)
  /\ generate_spectrum_overabundance_params 7500 4.0 2.0 (-0.5) 2.0 "Xx"
     = Raise (ValueError element_error)
  /\ ("Hg" ∈ OVERABUNDANCES)
  /\ exists v, generate_spectrum_overabundance_params 7500 4.0 2.0 (-0.5) 2.0
                 "Hg" = Ok (vec v) /\ length v = 12%nat.
Proof.
  assert (Hx : "Xx" ∉ OVERABUNDANCES).
  { apply (bool_decide_unpack _). reflexivity. }
  assert (Hg : "Hg" ∈ OVERABUNDANCES).
  { apply (bool_decide_unpack _). reflexivity. }
  split; [exact Hx|]. split.
  - apply (C4_invalid_element "Xx" 7500 4.0 2.0 (-0.5) 2.0). exact Hx.
  - split; [exact Hg|].
    apply (C4_invalid_element "Hg" 7500 4.0 2.0 (-0.5) 2.0). exact Hg.
Defined.

(** C10. On a recognized symbol each of the seven abundance slots other
    than the symbol's own is 0.5 in the returned 12-vector: a zero
    abundance scales to (0 - (-3)) / (3 - (-3)). *)
Theorem C10_other_slots_half :
  forall (teff logg vmic me abundance : R) (element : string) (i : nat),
    spec_slot element = Some i ->
    exists v,
      generate_spectrum_overabundance_params teff logg vmic me abundance
        element = Ok (vec v)
      /\ length v = 12%nat
      /\ (forall j, (j < 8)%nat -> j <> i -> v !! (4 + j)%nat = Some 0.5)
      /\ v !! (4 + i)%nat = Some ((abundance - -3.0) / (3.0 - -3.0)).
Proof.
  intros teff logg vmic me abundance element i Hi.
  eexists. split.
  { apply generate_spectrum_overabundance_params_slot. exact Hi. }
  assert (Hhalf : (0 - -3.0) / (3.0 - -3.0) = 0.5) by lra.
  apply spec_slot_inv in Hi. cbn in Hi.
  repeat (destruct Hi as [[= <- <-]|Hi];
          [split; [reflexivity|]; split; [|reflexivity];
           intros j Hj Hne;
           do 8 (destruct j as [|j];
                 [first [congruence | cbn; f_equal; exact Hhalf]|]);
           lia|]).
  destruct Hi.
Qed.

Lemma C10_other_slots_half_witness :
  spec_slot "Si" = Some 2%nat
  /\ exists v,
       generate_spectrum_overabundance_params 7500 4.0 2.0 (-0.5) 1.5 "Si"
       = Ok (vec v)
       /\ v !! 4%nat = Some 0.5 /\ v !! 5%nat = Some 0.5
       /\ v !! 7%nat = Some 0.5 /\ v !! 11%nat = Some 0.5.
Proof.
  split; [reflexivity|].
  destruct (C10_other_slots_half 7500 4.0 2.0 (-0.5) 1.5 "Si" 2 eq_refl)
    as (v & Hv & _ & Hslots & _).
  exists v. split; [exact Hv|].
  split; [apply (Hslots 0%nat); lia|].
  split; [apply (Hslots 1%nat); lia|].
  split; [apply (Hslots 3%nat); lia|apply (Hslots 7%nat); lia].
Defined.

(** ** The wavelength frequency encoder *)

Lemma ln_10_pos : 0 < ln 10.
Proof. rewrite <- ln_1. apply ln_increasing; lra. Qed.

Lemma Rpower_10_log10r (p : R) : 0 < p -> Rpower 10 (log10r p) = p.
Proof.
  intros Hp. unfold Rpower, log10r.
  replace (ln p / ln 10 * ln 10) with (ln p)
    by (field; pose proof ln_10_pos; lra).
  apply exp_ln. exact Hp.
Qed.

Lemma length_linspace (start stop : R) (num : nat) :
  length (linspace start stop num) = num.
Proof.
  destruct num as [|[|d]]; [reflexivity..|].
  unfold linspace. rewrite length_map, length_seq. reflexivity.
Qed.

Lemma lookup_linspace (start stop : R) (d k : nat) :
  (k <= S d)%nat ->
  linspace start stop (S (S d)) !! k
  = Some (start + INR k * ((stop - start) / INR (S d))).
Proof.
  intros Hk. unfold linspace.
  rewrite list_lookup_fmap, lookup_seq_lt by lia. reflexivity.
Qed.

(** The two ends of a grid of at least two points. *)
Lemma linspace_ends (start stop : R) (d : nat) :
  linspace start stop (S (S d)) !! O = Some start
  /\ linspace start stop (S (S d)) !! S d = Some stop.
Proof.
  rewrite !lookup_linspace by lia. split; f_equal.
  - cbn [INR]. lra.
  - assert (Hd : 0 < INR (S d)) by (apply lt_0_INR; lia).
    field. lra.
Qed.

Lemma lookup_periods (k : nat) :
  (k < 64)%nat -> periods !! k = Some (spec_period k).
Proof.
  intros Hk. unfold periods, logspace.
  rewrite list_lookup_fmap, lookup_linspace by lia. cbn [fmap option_fmap option_map].
  f_equal. unfold spec_period.
  replace (INR 63) with 63 by (cbn; lra).
  rewrite Rpower_plus, Rpower_10_log10r by lra. f_equal.
  replace (INR k * ((log10r 0.05 - log10r 1e-7) / 63))
    with ((log10r 0.05 + - log10r 1e-7) * (INR k / 63)) by (field; lra).
  rewrite <- Rpower_mult, Rpower_plus, Rpower_Ropp.
  rewrite !Rpower_10_log10r by lra. reflexivity.
Qed.

Lemma spec_period_pos (k : nat) : 0 < spec_period k.
Proof.
  unfold spec_period. apply Rmult_lt_0_compat; [lra|].
  unfold Rpower. apply exp_pos.
Qed.

Lemma length_frequency_encoding (x min_period max_period : R) (n : nat) :
  length (frequency_encoding x min_period max_period n) = n.
Proof.
  unfold frequency_encoding, logspace.
  rewrite !length_map. apply length_linspace.
Qed.

Lemma lookup_frequency_encoding (x : R) (k : nat) :
  (k < 64)%nat ->
  frequency_encoding x 1e-7 0.05 64 !! k
  = Some (sin (2 * PI / spec_period k * x)).
Proof.
  intros Hk. unfold frequency_encoding. fold periods.
  rewrite list_lookup_fmap, lookup_periods by exact Hk. reflexivity.
Qed.

(** C6. The encoding of a log-wavelength has exactly 64 components;
    component k is sin(2 pi x / period_k) for the periods of a geometric
    progression from 1e-7 (k = 0) to 0.05 (k = 63); every component lies in
    [-1, 1]. *)
Theorem C6_frequency_encoding :
  forall x : R,
    length (frequency_encoding x 1e-7 0.05 64) = 64%nat
    /\ spec_period 0 = 1e-7
    /\ spec_period 63 = 0.05
    /\ (forall k, (k < 63)%nat ->
          spec_period (S k) / spec_period k = Rpower (0.05 / 1e-7) (1 / 63))
    /\ (forall k, (k < 64)%nat ->
          exists y,
            frequency_encoding x 1e-7 0.05 64 !! k = Some y
            /\ y = sin (2 * PI * x / spec_period k)
            /\ -1 <= y <= 1).
Proof.
  intros x. split; [apply length_frequency_encoding|].
  split.
  { unfold spec_period. cbn [INR].
    replace (0 / 63) with 0 by lra. rewrite Rpower_O by lra. lra. }
  split.
  { unfold spec_period. replace (INR 63 / 63) with 1 by (cbn; lra).
    rewrite Rpower_1 by lra. lra. }
  split.
  { intros k Hk. unfold spec_period. rewrite S_INR.
    replace ((INR k + 1) / 63) with (INR k / 63 + 1 / 63) by lra.
    rewrite Rpower_plus.
    assert (Hp : 0 < Rpower (0.05 / 1e-7) (INR k / 63))
      by (unfold Rpower; apply exp_pos).
    field. lra. }
  intros k Hk. eexists. split; [apply lookup_frequency_encoding; exact Hk|].
  split; [|apply SIN_bound].
  f_equal. pose proof (spec_period_pos k). field. lra.
Qed.

(** ** The velocity shift *)

Lemma c_pos : 0 < c.
Proof. unfold c. lra. Qed.

Lemma doppler_factor_pos (v : R) : - c < v -> 0 < 1 + v / c.
Proof.
  intros Hv. pose proof c_pos as Hc.
  replace (1 + v / c) with ((c + v) / c) by (field; lra).
  apply Rdiv_lt_0_compat; lra.
Qed.

Lemma log10r_mult (x y : R) :
  0 < x -> 0 < y -> log10r (x * y) = log10r x + log10r y.
Proof.
  intros Hx Hy. unfold log10r. rewrite ln_mult by assumption.
  pose proof ln_10_pos. field. lra.
Qed.

(** Shifting a grid of positive wavelengths and taking logarithms is
    taking logarithms and adding the logarithm of the Doppler factor. *)
Lemma log10_redshift_wavelengths (ws : list R) (v : R) :
  Forall (fun w => 0 < w) ws -> - c < v ->
  log10 (Spice.redshift_wavelengths (vec ws) v)
  = amap (fun lw => lw + log10r (1 + v / c)) (log10 (vec ws)).
Proof.
  intros Hws Hv. unfold log10, Spice.redshift_wavelengths.
  rewrite !amap_vec. f_equal. rewrite !map_map.
  apply map_ext_in. intros w Hw.
  rewrite Forall_forall in Hws.
  apply log10r_mult; [apply Hws, list_elem_of_In, Hw|].
  apply doppler_factor_pos, Hv.
Qed.

(** C7. For a positive wavelength and a velocity above -c the
    multiplicative shift of [redshift_wavelengths] and the additive
    log-space shift of [predict_spectrum_with_rot_velocity] are the same
    shifted wavelength, so the two code paths evaluate the network at the
    same log-wavelengths and return the same fluxes. *)
Theorem C7_shift_paths_agree :
  forall (wl v : R), 0 < wl -> - c < v ->
    log10r (wl * (1 + v / c)) = log10r wl + log10r (1 + v / c)
    /\ Rpower 10 (log10r wl + log10r (1 + v / c)) = wl * (1 + v / c)
    /\ Spice.redshift_wavelengths (scalar wl) v = scalar (wl * (1 + v / c))
    /\ (forall ws : list R, Forall (fun w => 0 < w) ws ->
          log10 (Spice.redshift_wavelengths (vec ws) v)
          = amap (fun lw => lw + log10r (1 + v / c)) (log10 (vec ws)))
    /\ (forall (W : weights) (p : ndarray) (ws : list R),
          Forall (fun w => 0 < w) ws ->
          Spice.predict_spectrum W p (Spice.redshift_wavelengths (vec ws) v)
          = flatten <$> SpectrumIntegrator.predict_spectrum_with_rot_velocity
                          W p (log10 (vec ws)) v).
Proof.
  intros wl v Hwl Hv. pose proof (doppler_factor_pos v Hv) as Hf.
  split; [apply log10r_mult; assumption|].
  split.
  { rewrite <- log10r_mult by assumption.
    apply Rpower_10_log10r, Rmult_lt_0_compat; assumption. }
  split; [reflexivity|].
  split; [intros ws Hws; apply log10_redshift_wavelengths; assumption|].
  intros W p ws Hws. unfold Spice.predict_spectrum.
  rewrite log10_redshift_wavelengths by assumption. reflexivity.
Qed.

Lemma C7_shift_paths_agree_witness :
  log10r (4000 * (1 + 50 / c)) = log10r 4000 + log10r (1 + 50 / c)
  /\ log10r (4000 * (1 + -50 / c)) = log10r 4000 + log10r (1 + -50 / c).
Proof.
  split.
  - apply (C7_shift_paths_agree 4000 50); unfold c; lra.
  - apply (C7_shift_paths_agree 4000 (-50)); unfold c; lra.
Defined.

(** ** The flux network *)

Lemma length_dense_out (features : nat) (p : dense_params) (x : list R) :
  length (dense_out features p x) = features.
Proof. unfold dense_out. rewrite length_map, length_seq. reflexivity. Qed.

Lemma Dense_ok (features : nat) (p : dense_params) (x : list R) :
  dense_shape_ok (length x) features p = true ->
  Dense features p x = Ok (dense_out features p x).
Proof. intros Hok. unfold Dense. rewrite Hok. reflexivity. Qed.

Lemma Dense_wrong_inputs (features : nat) (p : dense_params) (x : list R)
    (n : nat) :
  dense_shape_ok n features p = true -> length x <> n ->
  Dense features p x = Raise (ShapeError "Dense: ScopeParamShapeError").
Proof.
  intros Hok Hlen. unfold Dense, dense_shape_ok in *.
  apply andb_true_iff in Hok as [Hok _].
  apply andb_true_iff in Hok as [Hk _].
  apply Nat.eqb_eq in Hk. rewrite Hk.
  destruct (Nat.eqb_spec n (length x)) as [Heq|_]; [congruence|reflexivity].
Qed.

Lemma SpectrumMLP_layers_4 (f0 f1 f2 f3 : nat) (d0 d1 d2 d3 : dense_params)
    (x : list R) :
  SpectrumMLP_layers [f0; f1; f2; f3] [d0; d1; d2; d3] x
  = (y0 ← Dense f0 d0 x;
     y1 ← Dense f1 d1 (map gelu y0);
     y2 ← Dense f2 d2 (map gelu y1);
     y3 ← Dense f3 d3 (map gelu y2);
     Ok (map (fun z => 1.0 - sigmoid z) y3)).
Proof. reflexivity. Qed.

Lemma dense_shape_ok_zero (n features : nat) :
  dense_shape_ok n features (zero_dense n features) = true.
Proof.
  unfold dense_shape_ok, zero_dense. cbn [kernel bias].
  rewrite !length_replicate, !Nat.eqb_refl. cbn [andb].
  rewrite andb_true_r. apply forallb_forall. intros row Hrow.
  apply list_elem_of_In, elem_of_replicate in Hrow as [-> _].
  rewrite length_replicate. apply Nat.eqb_refl.
Qed.

Lemma weights_ok_W0 : weights_ok W0 = true.
Proof.
  unfold weights_ok, W0. rewrite !dense_shape_ok_zero. reflexivity.
Qed.

Lemma model_apply_ok (W : weights) (p : list R) (lw : R) :
  weights_ok W = true -> length p = 12%nat ->
  model_apply W (vec p) (scalar lw) = Ok (vec [flux W p lw]).
Proof.
  intros Hok Hp.
  destruct W as [|d0 [|d1 [|d2 [|d3 [|d4 W]]]]]; try discriminate Hok.
  unfold weights_ok in Hok.
  apply andb_true_iff in Hok as [Hok H3].
  apply andb_true_iff in Hok as [Hok H2].
  apply andb_true_iff in Hok as [H0 H1].
  unfold model_apply, SpectrumMLP, hstack. cbn [as_scalar vec].
  change (stack (scalar <$> p)) with (vec p). rewrite as_vector_vec.
  cbn [mbind result_bind]. unfold architecture.
  rewrite SpectrumMLP_layers_4.
  rewrite Dense_ok; [cbn [mbind result_bind]|].
  2:{ rewrite length_app, Hp, length_frequency_encoding. exact H0. }
  rewrite Dense_ok; [cbn [mbind result_bind]|].
  2:{ rewrite length_map, length_dense_out. exact H1. }
  rewrite Dense_ok; [cbn [mbind result_bind]|].
  2:{ rewrite length_map, length_dense_out. exact H2. }
  rewrite Dense_ok; [cbn [mbind result_bind]|].
  2:{ rewrite length_map, length_dense_out. exact H3. }
  reflexivity.
Qed.

(** A scalar where twelve parameters are expected gives the first layer 65
    inputs, which the stored kernel of 76 rows does not take. *)
Lemma model_apply_scalar_parameters (W : weights) (s lw : R) :
  weights_ok W = true ->
  model_apply W (scalar s) (scalar lw)
  = Raise (ShapeError "Dense: ScopeParamShapeError").
Proof.
  intros Hok.
  destruct W as [|d0 [|d1 [|d2 [|d3 [|d4 W]]]]]; try discriminate Hok.
  unfold weights_ok in Hok.
  apply andb_true_iff in Hok as [Hok H3].
  apply andb_true_iff in Hok as [Hok H2].
  apply andb_true_iff in Hok as [H0 H1].
  unfold model_apply, SpectrumMLP, hstack. cbn [as_scalar].
  cbn [mbind result_bind]. unfold architecture.
  rewrite SpectrumMLP_layers_4.
  rewrite (Dense_wrong_inputs 512 d0 _ 76 H0); [reflexivity|].
  cbn [length]. rewrite length_frequency_encoding. lia.
Qed.

(** ** The predictors on arrays of the expected ranks *)

Lemma mapM_fmap {A B C : Type} (f : B -> result C) (h : A -> B) (l : list A) :
  mapM f (h <$> l) = mapM (fun x => f (h x)) l.
Proof.
  induction l as [|x l IH]; [reflexivity|].
  cbn. destruct (f (h x)); [|reflexivity]. cbn. cbn in IH. rewrite IH.
  reflexivity.
Qed.

Lemma entries_col (ys : list R) : entries (col ys) = ys.
Proof.
  unfold col. cbn [entries]. induction ys as [|y ys IH]; [reflexivity|].
  cbn. cbn in IH. rewrite IH. reflexivity.
Qed.

Lemma entries_cube (yss : list (list R)) : entries (cube yss) = concat yss.
Proof.
  unfold cube. cbn [entries]. induction yss as [|ys yss IH]; [reflexivity|].
  cbn [fmap list_fmap flat_map concat]. cbn [fmap list_fmap] in IH.
  rewrite IH, entries_col. reflexivity.
Qed.

Lemma amap_col (f : R -> R) (ys : list R) : amap f (col ys) = col (map f ys).
Proof.
  unfold col. cbn [amap]. f_equal.
  induction ys as [|y ys IH]; [reflexivity|]. cbn. cbn in IH. rewrite IH.
  reflexivity.
Qed.

Lemma amap_cube (f : R -> R) (yss : list (list R)) :
  amap f (cube yss) = cube (map (map f) yss).
Proof.
  unfold cube. cbn [amap]. f_equal.
  induction yss as [|ys yss IH]; [reflexivity|].
  cbn [fmap list_fmap map]. cbn [fmap list_fmap] in IH.
  rewrite IH, amap_col. reflexivity.
Qed.

Lemma mapM_zip_with_Ok {A B C D : Type} (f : C -> result D) (h : A -> B -> C)
    (g : A -> B -> D) (l : list A) (k : list B) :
  (forall a b, In a l -> In b k -> f (h a b) = Ok (g a b)) ->
  mapM f (zip_with h l k) = Ok (zip_with g l k).
Proof.
  revert k. induction l as [|a l IH]; intros [|b k] Hf; try reflexivity.
  cbn. rewrite Hf by (left; reflexivity). cbn.
  rewrite IH; [reflexivity|].
  intros a' b' Ha Hb. apply Hf; right; assumption.
Qed.

Section Predictors.
Variable W : weights.
Hypothesis W_ok : weights_ok W = true.

(** [spectrum_integrator]'s [predict_spectrum]: an (M, 1) array, the
    network at each log-wavelength as it is given. *)
Lemma SI_predict_spectrum_ok (p lws : list R) :
  length p = 12%nat ->
  SpectrumIntegrator.predict_spectrum W (vec p) (vec lws)
  = Ok (col (map (flux W p) lws)).
Proof.
  intros Hp. unfold SpectrumIntegrator.predict_spectrum, vec at 2.
  rewrite vmap2_None_0, mapM_fmap.
  rewrite (mapM_Ok_map _ (fun lw => vec [flux W p lw])).
  - cbn [fmap result_fmap]. unfold col. rewrite <- list_fmap_compose.
    reflexivity.
  - intros lw _. apply model_apply_ok; assumption.
Qed.

(** [spice]'s [predict_spectrum]: an (M,) array, the network at the base-10
    logarithm of each wavelength. *)
Lemma Spice_predict_spectrum_ok (p ws : list R) :
  length p = 12%nat ->
  Spice.predict_spectrum W (vec p) (vec ws)
  = Ok (vec (map (fun w => flux W p (log10r w)) ws)).
Proof.
  intros Hp. unfold Spice.predict_spectrum, Spice.__predict_spectrum, log10.
  rewrite amap_vec.
  change (vmap2 (model_apply W) AxNone Ax0 (vec p) (vec (map log10r ws)))
    with (SpectrumIntegrator.predict_spectrum W (vec p) (vec (map log10r ws))).
  rewrite SI_predict_spectrum_ok by exact Hp.
  cbn [fmap result_fmap]. unfold flatten.
  rewrite entries_col, map_map. reflexivity.
Qed.

Lemma SI_predict_spectrum_with_rot_velocity_ok (p lws : list R) (v : R) :
  length p = 12%nat ->
  SpectrumIntegrator.predict_spectrum_with_rot_velocity W (vec p) (vec lws) v
  = Ok (col (map (fun lw => flux W p (lw + log10r (1 + v / c))) lws)).
Proof.
  intros Hp. unfold SpectrumIntegrator.predict_spectrum_with_rot_velocity.
  rewrite amap_vec, SI_predict_spectrum_ok by exact Hp.
  rewrite map_map. reflexivity.
Qed.

Lemma SI_predict_spectra_ok (P : list (list R)) (lws : list R) :
  Forall (fun p => length p = 12%nat) P ->
  SpectrumIntegrator.predict_spectra W (mat P) (vec lws)
  = Ok (cube (map (fun p => map (flux W p) lws) P)).
Proof.
  intros HP. unfold SpectrumIntegrator.predict_spectra, mat.
  rewrite vmap2_0_None, mapM_fmap.
  rewrite (mapM_Ok_map _ (fun p => col (map (flux W p) lws))).
  - cbn [fmap result_fmap]. unfold cube. rewrite <- list_fmap_compose.
    reflexivity.
  - intros p Hin. apply SI_predict_spectrum_ok.
    rewrite Forall_forall in HP. apply HP, list_elem_of_In, Hin.
Qed.

Lemma Spice_predict_spectra_ok (P G : list (list R)) :
  Forall (fun p => length p = 12%nat) P -> length G = length P ->
  Spice.predict_spectra W (mat P) (mat G)
  = Ok (mat (zip_with (fun p g => map (fun w => flux W p (log10r w)) g)
               P G)).
Proof.
  intros HP Hlen. unfold Spice.predict_spectra, mat.
  rewrite vmap2_0_0 by (rewrite !length_fmap; lia).
  rewrite zip_with_fmap_l, zip_with_fmap_r.
  rewrite (mapM_zip_with_Ok _ _
             (fun p g => vec (map (fun w => flux W p (log10r w)) g))).
  - cbn [fmap result_fmap]. f_equal. f_equal.
    clear. revert G. induction P as [|p P IH]; intros [|g G];
      try reflexivity.
    cbn. f_equal. apply IH.
  - intros p g Hin _. cbn [fst snd]. apply Spice_predict_spectrum_ok.
    rewrite Forall_forall in HP. apply HP, list_elem_of_In, Hin.
Qed.

Lemma SI_predict_spectra_with_rot_velocity_ok (P : list (list R))
    (lws vs : list R) :
  Forall (fun p => length p = 12%nat) P -> length vs = length P ->
  SpectrumIntegrator.predict_spectra_with_rot_velocity W (mat P) (vec lws)
    (vec vs)
  = Ok (cube (zip_with
                (fun p v =>
                   map (fun lw => flux W p (lw + log10r (1 + v / c))) lws)
                P vs)).
Proof.
  intros HP Hlen.
  unfold SpectrumIntegrator.predict_spectra_with_rot_velocity, mat.
  change (vec vs) with (stack (scalar <$> vs)).
  rewrite vmap3_0_None_0 by (rewrite !length_fmap; lia).
  rewrite zip_with_fmap_l, zip_with_fmap_r.
  rewrite (mapM_zip_with_Ok _ _
             (fun p v =>
                col (map (fun lw => flux W p (lw + log10r (1 + v / c))) lws))).
  - cbn [fmap result_fmap]. f_equal. unfold cube. f_equal.
    clear. revert vs. induction P as [|p P IH]; intros [|v vs];
      try reflexivity.
    cbn. f_equal. apply IH.
  - intros p v Hin _. cbn [fst snd as_scalar].
    apply SI_predict_spectrum_with_rot_velocity_ok.
    rewrite Forall_forall in HP. apply HP, list_elem_of_In, Hin.
Qed.

End Predictors.

(** A wavelength argument of rank 0 is refused by the inner [vmap]. *)
Lemma Spice_predict_spectrum_rank0 (W : weights) (p : ndarray) (w : R) :
  Spice.predict_spectrum W p (scalar w)
  = Raise (ShapeError "vmap: mapped argument of rank 0").
Proof. reflexivity. Qed.

(** ** The batched predictors *)

Lemma cube_not_matrix (ys : list R) (yss : list (list R)) (y : R)
    (n m : nat) :
  ~ is_matrix n m (cube ((y :: ys) :: yss)).
Proof.
  intros (rows & Heq & _). unfold cube, col, mat, vec in Heq.
  destruct rows as [|[|x r] rows]; cbn in Heq; discriminate Heq.
Qed.

(** [spice]'s [predict_spectra] refuses one shared 1-d grid: the mapped axes
    have sizes N and M, and when these agree each call receives a
    wavelength of rank 0. *)
Lemma Spice_predict_spectra_shared_grid_sizes (W : weights)
    (P : list (list R)) (ws : list R) :
  length P <> length ws ->
  Spice.predict_spectra W (mat P) (vec ws)
  = Raise (ShapeError "vmap: inconsistent sizes of the mapped axes").
Proof.
  intros Hlen. unfold Spice.predict_spectra, mat, vec.
  apply vmap2_0_0_sizes. rewrite !length_fmap. exact Hlen.
Qed.

Lemma Spice_predict_spectra_shared_grid_rank (W : weights)
    (P : list (list R)) (ws : list R) :
  length P = length ws -> P <> [] ->
  Spice.predict_spectra W (mat P) (vec ws)
  = Raise (ShapeError "vmap: mapped argument of rank 0").
Proof.
  intros Hlen Hne. unfold Spice.predict_spectra, mat, vec.
  rewrite vmap2_0_0 by (rewrite !length_fmap; exact Hlen).
  destruct P as [|p P]; [congruence|]. destruct ws as [|w ws]; [discriminate|].
  cbn [fmap list_fmap zip_with].
  rewrite (mapM_Raise_head _ _ _ (ShapeError "vmap: mapped argument of rank 0"));
    reflexivity.
Qed.

(** C1, as the two modules have it. [spice.spectra.predict_spectra] maps
    over the parameter sets and over the wavelength grids: given N
    parameter sets and N grids of angstrom wavelengths it returns the N
    rows in which row i is the spectrum of parameter set i over grid i.
    [spectrum_integrator.spectrum_mlp.predict_spectra] shares one grid of
    log-wavelengths and returns an N-by-M-by-1 array whose entry (i, j) is
    the network for parameter set i at log-wavelength j. Rows keep the
    input order and no sample is dropped. *)
Theorem C1_predict_spectra :
  forall (W : weights) (P : list (list R)),
    weights_ok W = true ->
    Forall (fun p => length p = 12%nat) P ->
    (forall G : list (list R), length G = length P ->
       Spice.predict_spectra W (mat P) (mat G)
       = Ok (mat (zip_with (fun p g => map (fun w => flux W p (log10r w)) g)
                    P G))
       /\ length (zip_with (fun p g => map (fun w => flux W p (log10r w)) g)
                    P G) = length P
       /\ forall i p g, P !! i = Some p -> G !! i = Some g ->
            Spice.predict_spectrum W (vec p) (vec g)
            = Ok (vec (map (fun w => flux W p (log10r w)) g))
            /\ zip_with (fun p g => map (fun w => flux W p (log10r w)) g)
                 P G !! i
               = Some (map (fun w => flux W p (log10r w)) g))
    /\ (forall lws : list R,
          SpectrumIntegrator.predict_spectra W (mat P) (vec lws)
          = Ok (cube (map (fun p => map (flux W p) lws) P))
          /\ forall i p, P !! i = Some p ->
               SpectrumIntegrator.predict_spectrum W (vec p) (vec lws)
               = Ok (col (map (flux W p) lws))
               /\ map (fun p => map (flux W p) lws) P !! i
                  = Some (map (flux W p) lws)).
Proof.
  intros W P Hok HP. split.
  - intros G Hlen.
    split; [apply Spice_predict_spectra_ok; assumption|].
    split; [rewrite length_zip_with; lia|].
    intros i p g Hp Hg.
    split.
    + apply Spice_predict_spectrum_ok; [exact Hok|].
      rewrite Forall_forall in HP. apply HP.
      apply list_elem_of_lookup. exists i. exact Hp.
    + rewrite lookup_zip_with, Hp, Hg. reflexivity.
  - intros lws.
    split; [apply SI_predict_spectra_ok; assumption|].
    intros i p Hp. split.
    + apply SI_predict_spectrum_ok; [exact Hok|].
      rewrite Forall_forall in HP. apply HP.
      apply list_elem_of_lookup. exists i. exact Hp.
    + rewrite list_lookup_fmap, Hp. reflexivity.
Qed.

Lemma C1_predict_spectra_witness :
  Spice.predict_spectra W0 (mat [p_mid; p_mid])
    (mat [[4000; 4001; 4002]; [5000; 5001; 5002]])
  = Ok (mat [[flux W0 p_mid (log10r 4000); flux W0 p_mid (log10r 4001);
              flux W0 p_mid (log10r 4002)];
             [flux W0 p_mid (log10r 5000); flux W0 p_mid (log10r 5001);
              flux W0 p_mid (log10r 5002)]]).
Proof.
  assert (HP : Forall (fun p : list R => length p = 12%nat) [p_mid; p_mid])
    by (repeat constructor).
  destruct (C1_predict_spectra W0 [p_mid; p_mid] weights_ok_W0 HP)
    as [Hspice _].
  destruct (Hspice [[4000; 4001; 4002]; [5000; 5001; 5002]] eq_refl)
    as [Heq _].
  cbn [zip_with map] in Heq. exact Heq.
Defined.

(** C1 as stated fails in [spice.spectra]: with one shared 1-d grid the
    mapped axes have sizes N and M, and when these agree each call gets a
    rank-0 wavelength; in [spectrum_integrator.spectrum_mlp] the result of a
    shared grid is not an N-by-M array. *)
Lemma C1_counterexample :
  Spice.predict_spectra W0 (mat [p_mid; p_mid]) (vec [4000; 4001; 4002])
  = Raise (ShapeError "vmap: inconsistent sizes of the mapped axes")
  /\ Spice.predict_spectra W0 (mat [p_mid; p_mid]) (vec [4000; 4001])
     = Raise (ShapeError "vmap: mapped argument of rank 0")
  /\ (exists a,
        SpectrumIntegrator.predict_spectra W0 (mat [p_mid; p_mid])
          (vec [3.6; 3.61; 3.62]) = Ok a
        /\ shape a = Some [2; 3; 1]%nat
        /\ ~ is_matrix 2 3 a).
Proof.
  split; [|split].
  - apply Spice_predict_spectra_shared_grid_sizes. cbn. lia.
  - apply Spice_predict_spectra_shared_grid_rank; [reflexivity|discriminate].
  - eexists. split.
    + apply SI_predict_spectra_ok; [exact weights_ok_W0|repeat constructor].
    + split; [reflexivity|apply cube_not_matrix].
Qed.

(** The shape of an (N, M, 1) array of values. *)
Lemma shape_col (ys : list R) :
  shape (col ys) = match ys with [] => Some [0] | _ => Some [length ys; 1] end%nat.
Proof.
  destruct ys as [|y ys]; [reflexivity|].
  unfold col. cbn [shape fmap list_fmap map].
  change (shape (vec [y])) with (Some [1%nat]). cbv beta iota.
  assert (H : forallb (fun s' => bool_decide (s' = Some [1%nat]))
                (map shape ((fun y => vec [y]) <$> ys)) = true).
  { induction ys as [|z ys IH]; [reflexivity|]. cbn. exact IH. }
  rewrite H. cbn [length]. rewrite length_fmap. reflexivity.
Qed.

Lemma shape_cube (yss : list (list R)) (m : nat) :
  Forall (fun ys => length ys = m) yss ->
  shape (cube yss)
  = match yss, m with
    | [], _ => Some [0]
    | _ :: _, O => Some [length yss; 0]
    | _ :: _, S _ => Some [length yss; m; 1]
    end%nat.
Proof.
  intros Hm. destruct yss as [|ys yss]; [reflexivity|].
  assert (Hs : forall zs, length zs = m ->
            shape (col zs) = Some (match m with O => [0] | S _ => [m; 1] end)%nat).
  { intros zs Hz. rewrite shape_col. destruct zs; cbn in Hz; subst m;
      reflexivity. }
  inversion Hm as [|? ? Hys Hyss]; subst.
  unfold cube. cbn [shape fmap list_fmap map].
  rewrite (Hs ys eq_refl). cbv beta iota.
  assert (H : forallb
                (fun s' => bool_decide
                   (s' = Some (match length ys with
                               | O => [0] | S _ => [length ys; 1] end)%nat))
                (map shape (col <$> yss)) = true).
  { clear Hm. induction Hyss as [|zs yss Hz Hyss IH]; [reflexivity|].
    cbn [fmap list_fmap map forallb].
    rewrite (Hs zs Hz), bool_decide_eq_true_2 by reflexivity.
    exact IH. }
  rewrite H. cbn [length]. rewrite length_fmap.
  destruct (length ys); reflexivity.
Qed.

(** C8, as the code has it. Given N parameter sets, one shared grid of M
    log-wavelengths and N velocities, [predict_spectra_with_rot_velocity]
    returns an N-by-M-by-1 array: row i holds, one value per one-entry
    array, the network for parameter set i at each log-wavelength shifted
    by log10(1 + v_i/c), the velocity of the same index and no other. *)
Theorem C8_predict_spectra_with_rot_velocity :
  forall (W : weights) (P : list (list R)) (lws vs : list R),
    weights_ok W = true ->
    Forall (fun p => length p = 12%nat) P ->
    length vs = length P ->
    let row p v := map (fun lw => flux W p (lw + log10r (1 + v / c))) lws in
    SpectrumIntegrator.predict_spectra_with_rot_velocity W (mat P) (vec lws)
      (vec vs)
    = Ok (cube (zip_with row P vs))
    /\ (P <> [] -> lws <> [] ->
          shape (cube (zip_with row P vs))
          = Some [length P; length lws; 1%nat])
    /\ forall i p v, P !! i = Some p -> vs !! i = Some v ->
         zip_with row P vs !! i = Some (row p v)
         /\ SpectrumIntegrator.predict_spectrum W (vec p)
              (amap (fun lw => lw + log10r (1 + v / c)) (vec lws))
            = Ok (col (row p v)).
Proof.
  intros W P lws vs Hok HP Hlen row. split; [|split].
  - apply SI_predict_spectra_with_rot_velocity_ok; assumption.
  - intros HPne Hlne. rewrite (shape_cube _ (length lws)).
    + destruct P as [|p P]; [congruence|]. destruct vs as [|v vs];
        [discriminate|]. destruct lws as [|lw lws]; [congruence|].
      cbn [zip_with length]. rewrite length_zip_with.
      cbn [length] in Hlen. do 3 f_equal. lia.
    + apply Forall_forall. intros r Hr.
      apply elem_of_zip_with in Hr as (p & v & -> & _).
      unfold row. apply length_map.
  - intros i p v Hp Hv. split.
    + rewrite lookup_zip_with, Hp. cbn. rewrite Hv. reflexivity.
    + apply (SI_predict_spectrum_with_rot_velocity_ok W Hok p lws v).
      rewrite Forall_forall in HP. apply HP.
      apply list_elem_of_lookup. exists i. exact Hp.
Qed.

Lemma C8_predict_spectra_with_rot_velocity_witness :
  SpectrumIntegrator.predict_spectra_with_rot_velocity W0
    (mat [p_mid; p_mid]) (vec [3.6; 3.61]) (vec [10; -10])
  = Ok (cube [[flux W0 p_mid (3.6 + log10r (1 + 10 / c));
               flux W0 p_mid (3.61 + log10r (1 + 10 / c))];
              [flux W0 p_mid (3.6 + log10r (1 + -10 / c));
               flux W0 p_mid (3.61 + log10r (1 + -10 / c))]]).
Proof.
  assert (HP : Forall (fun p : list R => length p = 12%nat) [p_mid; p_mid])
    by (repeat constructor).
  destruct (C8_predict_spectra_with_rot_velocity W0 [p_mid; p_mid]
              [3.6; 3.61] [10; -10] weights_ok_W0 HP eq_refl) as [Heq _].
  cbn [zip_with map] in Heq. exact Heq.
Defined.

(** C8 as stated fails on the shape: the result for two parameter sets and
    three log-wavelengths has shape (2, 3, 1) and is not a 2-by-3 array. *)
Lemma C8_counterexample :
  exists a,
    SpectrumIntegrator.predict_spectra_with_rot_velocity W0
      (mat [p_mid; p_mid]) (vec [3.6; 3.61; 3.62]) (vec [10; -10]) = Ok a
    /\ shape a = Some [2; 3; 1]%nat
    /\ ~ is_matrix 2 3 a.
Proof.
  eexists. split.
  - apply SI_predict_spectra_with_rot_velocity_ok;
      [exact weights_ok_W0|repeat constructor|reflexivity].
  - split; [reflexivity|apply cube_not_matrix].
Qed.

(** ** The disk-integration driver *)

Lemma chunks_concat (n : nat) (rows : list (list R)) :
  (0 < n)%nat -> Forall (fun r => length r = n) rows ->
  forall fuel, (length rows <= fuel)%nat ->
    chunks fuel n (concat rows) = rows.
Proof.
  intros Hn Hrows. induction Hrows as [|r rows Hr Hrows IH];
    intros fuel Hfuel.
  - destruct fuel; reflexivity.
  - destruct fuel as [|fuel]; [cbn in Hfuel; lia|].
    cbn [concat]. destruct r as [|x r]; [cbn in Hr; lia|].
    cbn [chunks app]. change (x :: r ++ concat rows)
      with ((x :: r) ++ concat rows).
    rewrite (take_app_length' _ _ n), (drop_app_length' _ _ n)
      by (symmetry; exact Hr).
    rewrite IH by (cbn in Hfuel; lia). reflexivity.
Qed.

Lemma length_concat_rows (n : nat) (rows : list (list R)) :
  Forall (fun r => length r = n) rows ->
  length (concat rows) = (length rows * n)%nat.
Proof.
  induction 1 as [|r rows Hr Hrows IH]; [reflexivity|].
  cbn. rewrite length_app, IH, Hr. reflexivity.
Qed.

(** Reshaping an (N, n, 1) array to rows of n drops the last axis. *)
Lemma reshape_rows_cube (n : nat) (rows : list (list R)) :
  (0 < n)%nat -> Forall (fun r => length r = n) rows ->
  reshape_rows n (cube rows) = Ok (mat rows).
Proof.
  intros Hn Hrows. unfold reshape_rows. rewrite entries_cube.
  destruct n as [|n]; [lia|].
  rewrite (length_concat_rows (S n)) by exact Hrows.
  rewrite Nat.Div0.mod_mul, Nat.eqb_refl.
  rewrite chunks_concat; [reflexivity|lia|exact Hrows|].
  nia.
Qed.

Lemma map_zip_with {A B C D : Type} (f : C -> D) (h : A -> B -> C)
    (l : list A) (k : list B) :
  map f (zip_with h l k) = zip_with (fun a b => f (h a b)) l k.
Proof.
  revert k. induction l as [|a l IH]; intros [|b k]; try reflexivity.
  cbn. rewrite IH. reflexivity.
Qed.

(** C9, as the code has it. The returned function takes D parameter sets,
    one per disk point, and D velocities; for n >= 1 it returns the D-by-n
    array whose row j is one minus the network for parameter set j over the
    n-point grid, uniform in log-wavelength from log10(wave_min) to
    log10(wave_max), shifted by log10(1 + v_j/c). The rows are not summed. *)
Theorem C9_spectra_prediction_function :
  forall (W : weights) (wave_min wave_max : R) (n : nat)
         (P : list (list R)) (vs : list R),
    weights_ok W = true ->
    (0 < n)%nat ->
    Forall (fun p => length p = 12%nat) P ->
    length vs = length P ->
    let log_wave := linspace (log10r wave_min) (log10r wave_max) n in
    let row p v :=
      map (fun lw => 1 - flux W p (lw + log10r (1 + v / c))) log_wave in
    SpectrumIntegrator.spectra_prediction_function W wave_min wave_max n
      (mat P) (vec vs)
    = Ok (mat (zip_with row P vs))
    /\ is_matrix (length P) n (mat (zip_with row P vs))
    /\ length log_wave = n
    /\ forall j p v, P !! j = Some p -> vs !! j = Some v ->
         zip_with row P vs !! j = Some (row p v).
Proof.
  intros W wave_min wave_max n P vs Hok Hn HP Hlen log_wave row.
  assert (Hrows : Forall (fun r => length r = n) (zip_with row P vs)).
  { apply Forall_forall. intros r Hr.
    apply elem_of_zip_with in Hr as (p & v & -> & _).
    unfold row. rewrite length_map. apply length_linspace. }
  split; [|split; [|split]].
  - unfold SpectrumIntegrator.spectra_prediction_function.
    rewrite SI_predict_spectra_with_rot_velocity_ok by assumption.
    cbn [mbind result_bind]. rewrite amap_cube, map_zip_with.
    rewrite reshape_rows_cube; [|exact Hn|].
    + f_equal. f_equal. unfold row, log_wave.
      clear. revert vs. induction P as [|p P IH]; intros [|v vs];
        try reflexivity.
      cbn [zip_with]. rewrite IH, map_map. reflexivity.
    + apply Forall_forall. intros r Hr.
      apply elem_of_zip_with in Hr as (p & v & -> & _).
      rewrite !length_map. apply length_linspace.
  - exists (zip_with row P vs). split; [reflexivity|].
    split; [rewrite length_zip_with; lia|exact Hrows].
  - apply length_linspace.
  - intros j p v Hp Hv.
    rewrite lookup_zip_with, Hp. cbn. rewrite Hv. reflexivity.
Qed.

Lemma C9_spectra_prediction_function_witness :
  let log_wave := linspace (log10r 4000) (log10r 4010) 3 in
  SpectrumIntegrator.spectra_prediction_function W0 4000 4010 3
    (mat [p_mid; p_mid]) (vec [10; -10])
  = Ok (mat [map (fun lw => 1 - flux W0 p_mid (lw + log10r (1 + 10 / c)))
               log_wave;
             map (fun lw => 1 - flux W0 p_mid (lw + log10r (1 + -10 / c)))
               log_wave]).
Proof.
  assert (HP : Forall (fun p : list R => length p = 12%nat) [p_mid; p_mid])
    by (repeat constructor).
  assert (Hn : (0 < 3)%nat) by lia.
  destruct (C9_spectra_prediction_function W0 4000 4010 3 [p_mid; p_mid]
              [10; -10] weights_ok_W0 Hn HP eq_refl) as [Heq _].
  cbn [zip_with] in Heq. exact Heq.
Defined.

(** One star's twelve parameters in place of one set per disk point: the
    mapped axes have sizes 12 and D; with D = 12 each call receives a
    scalar for its parameters and the first dense layer refuses its 65
    inputs. *)
Lemma SI_predict_spectrum_scalar_parameters (W : weights) (s lw : R)
    (lws : list R) :
  weights_ok W = true ->
  SpectrumIntegrator.predict_spectrum W (scalar s) (vec (lw :: lws))
  = Raise (ShapeError "Dense: ScopeParamShapeError").
Proof.
  intros Hok. unfold SpectrumIntegrator.predict_spectrum, vec.
  rewrite vmap2_None_0. cbn [fmap list_fmap].
  rewrite (mapM_Raise_head _ _ _ (ShapeError "Dense: ScopeParamShapeError"));
    [reflexivity|].
  apply model_apply_scalar_parameters. exact Hok.
Qed.

Lemma spectra_prediction_function_one_star_sizes (W : weights)
    (wave_min wave_max : R) (n : nat) (p vs : list R) :
  length p <> length vs ->
  SpectrumIntegrator.spectra_prediction_function W wave_min wave_max n
    (vec p) (vec vs)
  = Raise (ShapeError "vmap: inconsistent sizes of the mapped axes").
Proof.
  intros Hlen. unfold SpectrumIntegrator.spectra_prediction_function,
    SpectrumIntegrator.predict_spectra_with_rot_velocity.
  unfold vec at 1 3.
  rewrite vmap3_0_None_0_sizes by (rewrite !length_fmap; exact Hlen).
  reflexivity.
Qed.

Lemma spectra_prediction_function_one_star_rank (W : weights)
    (wave_min wave_max : R) (n : nat) (p vs : list R) :
  weights_ok W = true -> (0 < n)%nat ->
  length p = length vs -> p <> [] ->
  SpectrumIntegrator.spectra_prediction_function W wave_min wave_max n
    (vec p) (vec vs)
  = Raise (ShapeError "Dense: ScopeParamShapeError").
Proof.
  intros Hok Hn Hlen Hne.
  unfold SpectrumIntegrator.spectra_prediction_function,
    SpectrumIntegrator.predict_spectra_with_rot_velocity.
  unfold vec at 1 3.
  rewrite vmap3_0_None_0 by (rewrite !length_fmap; exact Hlen).
  destruct p as [|s p]; [congruence|]. destruct vs as [|v vs]; [discriminate|].
  cbn [fmap list_fmap zip_with].
  rewrite (mapM_Raise_head _ _ _ (ShapeError "Dense: ScopeParamShapeError"));
    [reflexivity|].
  cbn [fst snd as_scalar].
  unfold SpectrumIntegrator.predict_spectrum_with_rot_velocity.
  rewrite amap_vec.
  pose proof (length_linspace (log10r wave_min) (log10r wave_max) n) as Hl.
  destruct (linspace (log10r wave_min) (log10r wave_max) n) as [|lw lws];
    [cbn in Hl; lia|].
  apply SI_predict_spectrum_scalar_parameters. exact Hok.
Qed.

(** C9 as stated fails: on one star's 12-vector of parameters the returned
    function raises, whether the rotation map has 12 velocities or not; and
    with a point count of 0 the reshape cannot solve for its free axis. *)
Lemma C9_counterexample :
  SpectrumIntegrator.spectra_prediction_function W0 4000 4010 3
    (vec p_mid) (vec [10; -10])
  = Raise (ShapeError "vmap: inconsistent sizes of the mapped axes")
  /\ SpectrumIntegrator.spectra_prediction_function W0 4000 4010 3
       (vec p_mid) (vec (replicate 12 10))
     = Raise (ShapeError "Dense: ScopeParamShapeError")
  /\ SpectrumIntegrator.spectra_prediction_function W0 4000 4010 0
       (mat [p_mid; p_mid]) (vec [10; -10])
     = Raise (ShapeError "reshape: cannot infer -1").
Proof.
  split; [|split].
  - apply spectra_prediction_function_one_star_sizes. cbn. lia.
  - apply spectra_prediction_function_one_star_rank;
      [exact weights_ok_W0|lia|reflexivity|discriminate].
  - unfold SpectrumIntegrator.spectra_prediction_function.
    rewrite (SI_predict_spectra_with_rot_velocity_ok W0 weights_ok_W0)
      by (repeat constructor).
    reflexivity.
Qed.

(** ** Where the logarithm of the wavelength is taken *)

Lemma Rlt_div_below (a b d : R) : 0 < d -> a * d < b -> a < b / d.
Proof.
  intros Hd H. apply (Rmult_lt_reg_r d); [exact Hd|].
  replace (b / d * d) with b by (field; lra). exact H.
Qed.

Lemma Rlt_div_above (a b d : R) : 0 < d -> a < b * d -> a / d < b.
Proof.
  intros Hd H. apply (Rmult_lt_reg_r d); [exact Hd|].
  replace (a / d * d) with a by (field; lra). exact H.
Qed.

(** *** The activations at and above zero *)

Lemma tanh_gt_m1 (u : R) : -1 < tanh u.
Proof.
  unfold tanh, sinh, cosh.
  pose proof (exp_pos u) as Ha. pose proof (exp_pos (- u)) as Hb.
  set (a := exp u) in *. set (b := exp (- u)) in *.
  replace ((a - b) / 2 / ((a + b) / 2)) with (1 - 2 * b / (a + b))
    by (field; lra).
  assert (Hq : 2 * b / (a + b) < 2) by (apply Rlt_div_above; lra).
  lra.
Qed.

Lemma gelu_0 : gelu 0 = 0.
Proof. unfold gelu. apply Rmult_0_l. Qed.

Lemma gelu_pos (x : R) : 0 < x -> 0 < gelu x.
Proof.
  intros Hx. unfold gelu. apply Rmult_lt_0_compat; [exact Hx|].
  pose proof (tanh_gt_m1 (sqrt (2 / PI) * (x + 0.044715 * x ^ 3))). lra.
Qed.

Lemma sigmoid_0 : sigmoid 0 = 1 / 2.
Proof. unfold sigmoid. rewrite Ropp_0, exp_0. lra. Qed.

Lemma sigmoid_pos (z : R) : 0 < z -> 1 / 2 < sigmoid z.
Proof.
  intros Hz. unfold sigmoid.
  pose proof (exp_pos (- z)) as He.
  assert (Hlt : exp (- z) < 1).
  { rewrite <- exp_0. apply exp_increasing. lra. }
  apply Rlt_div_below; lra.
Qed.

(** *** The logarithm of 4000 and the last component of its encoding *)

Lemma log10r_4000_bounds : 3.6 < log10r 4000 < 3.625.
Proof.
  pose proof ln_10_pos as H10. unfold log10r.
  assert (Hlo : INR 18 * ln 10 < INR 5 * ln 4000).
  { rewrite <- !ln_pow by lra. apply ln_increasing; lra. }
  assert (Hhi : INR 8 * ln 4000 < INR 29 * ln 10).
  { rewrite <- !ln_pow by lra. apply ln_increasing; lra. }
  replace (INR 18) with 18 in Hlo by (cbn; lra).
  replace (INR 5) with 5 in Hlo by (cbn; lra).
  replace (INR 8) with 8 in Hhi by (cbn; lra).
  replace (INR 29) with 29 in Hhi by (cbn; lra).
  split; [apply Rlt_div_below|apply Rlt_div_above]; lra.
Qed.

Lemma spec_period_63 : spec_period 63 = 0.05.
Proof.
  unfold spec_period. replace (INR 63 / 63) with 1 by (cbn; lra).
  rewrite Rpower_1 by lra. lra.
Qed.

(** At the period 0.05 the wavelength 4000 itself falls on a zero of the
    sine, its logarithm does not. *)
Lemma last_component_at_4000 : sin (2 * PI / spec_period 63 * 4000) = 0.
Proof.
  rewrite spec_period_63. apply sin_eq_0_1. exists 160000%Z. lra.
Qed.

Lemma last_component_at_log_4000 :
  0 < sin (2 * PI / spec_period 63 * log10r 4000).
Proof.
  rewrite spec_period_63. pose proof log10r_4000_bounds as [Hlo Hhi].
  pose proof PI_RGT_0 as Hpi.
  replace (2 * PI / 0.05 * log10r 4000)
    with ((40 * log10r 4000 - 144) * PI + 2 * INR 72 * PI)
    by (replace (INR 72) with 72 by (cbn; lra); lra).
  rewrite sin_period. apply sin_gt_0; nra.
Qed.

(** *** Weights that pass one input on *)

Lemma dense_shape_ok_unit (n features i0 j0 : nat) :
  dense_shape_ok n features (unit_dense n features i0 j0) = true.
Proof.
  unfold dense_shape_ok, unit_dense. cbn [kernel bias].
  rewrite length_map, length_seq, length_replicate, !Nat.eqb_refl.
  cbn [andb]. rewrite andb_true_r. apply forallb_forall. intros row Hrow.
  apply in_map_iff in Hrow as (i & <- & _).
  rewrite length_map, length_seq. apply Nat.eqb_refl.
Qed.

Lemma weights_ok_W1 : weights_ok W1 = true.
Proof.
  unfold weights_ok, W1. rewrite !dense_shape_ok_unit. reflexivity.
Qed.

Lemma nth_map_seq (g : nat -> R) (n j : nat) :
  (j < n)%nat -> nth j (map g (seq 0 n)) 0 = g j.
Proof.
  intros Hj. rewrite (nth_indep _ 0 (g O)) by (rewrite length_map, length_seq; lia).
  rewrite map_nth, seq_nth by lia. reflexivity.
Qed.

Lemma column_unit (n features i0 j0 j : nat) :
  (j < features)%nat ->
  column j (kernel (unit_dense n features i0 j0))
  = map (fun i => if (i =? i0)%nat && (j =? j0)%nat then 1 else 0) (seq 0 n).
Proof.
  intros Hj. unfold column, unit_dense. cbn [kernel].
  rewrite map_map. apply map_ext. intros i.
  apply (nth_map_seq (fun j => if (i =? i0)%nat && (j =? j0)%nat then 1 else 0)).
  exact Hj.
Qed.

Lemma dot_zero (x : list R) (s : nat) :
  dot x (map (fun _ => 0) (seq s (length x))) = 0.
Proof.
  unfold dot. revert s. induction x as [|a x IH]; intros s; [reflexivity|].
  cbn. rewrite IH. lra.
Qed.

Lemma dot_unit (x : list R) (i0 s : nat) :
  dot x (map (fun i => if (i =? i0)%nat then 1 else 0) (seq s (length x)))
  = if (s <=? i0)%nat then nth (i0 - s) x 0 else 0.
Proof.
  unfold dot. revert s. induction x as [|a x IH]; intros s.
  - cbn. destruct (s <=? i0)%nat; [destruct (i0 - s)%nat|]; reflexivity.
  - cbn [length seq map zip_with foldr]. rewrite IH.
    destruct (Nat.eqb_spec s i0) as [->|Hne].
    + rewrite Nat.leb_refl, Nat.sub_diag.
      destruct (Nat.leb_spec (S i0) i0) as [Hle|_]; [lia|]. cbn. lra.
    + destruct (Nat.leb_spec s i0) as [Hle|Hgt].
      * destruct (Nat.leb_spec (S s) i0) as [_|Hgt]; [|lia].
        replace (i0 - s)%nat with (S (i0 - S s)) by lia. cbn. lra.
      * destruct (Nat.leb_spec (S s) i0) as [Hle|_]; [lia|]. lra.
Qed.

Lemma nth_replicate_same (n j : nat) (a : R) : nth j (replicate n a) a = a.
Proof.
  revert j. induction n as [|n IH]; intros [|j]; cbn; auto.
Qed.

Lemma dense_out_unit (n features i0 : nat) (x : list R) :
  length x = n ->
  dense_out features (unit_dense n features i0 0) x
  = map (fun j => if (j =? 0)%nat then nth i0 x 0 else 0) (seq 0 features).
Proof.
  intros Hx. unfold dense_out. apply map_ext_in. intros j Hj.
  apply in_seq in Hj. rewrite column_unit by lia.
  cbn [bias unit_dense].
  rewrite nth_replicate_same.
  subst n. destruct (Nat.eqb_spec j 0) as [->|Hne].
  - erewrite map_ext;
      [|intros i; cbn [Nat.eqb]; rewrite andb_true_r; reflexivity].
    rewrite dot_unit. cbn [Nat.leb]. rewrite Nat.sub_0_r. lra.
  - erewrite map_ext; [|intros i; rewrite andb_false_r; reflexivity].
    rewrite dot_zero. lra.
Qed.

Lemma length_slot0 (features : nat) (a : R) :
  length (slot0 features a) = features.
Proof. unfold slot0. rewrite length_map, length_seq. reflexivity. Qed.

Lemma nth_0_slot0 (features : nat) (a : R) :
  (0 < features)%nat -> nth 0 (slot0 features a) 0 = a.
Proof.
  intros Hf.
  apply (nth_map_seq (fun j => if (j =? 0)%nat then a else 0) features 0 Hf).
Qed.

Lemma layer_unit (n features i0 : nat) (x : list R) :
  length x = n ->
  map gelu (dense_out features (unit_dense n features i0 0) x)
  = slot0 features (gelu (nth i0 x 0)).
Proof.
  intros Hx. rewrite (dense_out_unit n features i0 x Hx).
  unfold slot0. rewrite map_map. apply map_ext. intros j.
  destruct (j =? 0)%nat; [reflexivity|apply gelu_0].
Qed.

(** Under [W1] the network is a function of the last component of the
    encoding alone. *)
Lemma flux_W1 (p : list R) (lw : R) :
  length p = 12%nat ->
  flux W1 p lw
  = 1.0 - sigmoid (gelu (gelu (gelu (sin (2 * PI / spec_period 63 * lw))))).
Proof.
  intros Hp. unfold flux, W1. cbv zeta.
  set (x := p ++ frequency_encoding lw 1e-7 0.05 64).
  assert (Hx : length x = 76%nat)
    by (unfold x; rewrite length_app, Hp, length_frequency_encoding;
        reflexivity).
  rewrite (layer_unit 76 512 75 x Hx).
  rewrite (layer_unit 512 512 0 (slot0 512 _)) by apply length_slot0.
  rewrite nth_0_slot0 by lia.
  rewrite (layer_unit 512 512 0 (slot0 512 _)) by apply length_slot0.
  rewrite nth_0_slot0 by lia.
  rewrite (column_unit 512 1 0 0 0) by lia.
  erewrite map_ext;
    [|intros i; cbn [Nat.eqb]; rewrite andb_true_r; reflexivity].
  set (h2 := slot0 512 _).
  replace 512%nat with (length h2) at 1 by apply length_slot0.
  rewrite dot_unit. cbn [Nat.leb Nat.sub].
  unfold h2. rewrite nth_0_slot0 by lia.
  cbn [bias unit_dense replicate nth].
  unfold x. rewrite app_nth2 by (rewrite Hp; lia). rewrite Hp.
  change (75 - 12)%nat with 63%nat.
  rewrite nth_lookup, lookup_frequency_encoding by lia.
  cbn [default]. unfold id. rewrite Rplus_0_r. reflexivity.
Qed.

(** C2, as the two modules have it. [spice.spectra.predict_spectrum] takes
    wavelengths in angstroms and evaluates the network, frequency encoding
    included, at the base-10 logarithm of each.
    [spectrum_integrator.spectrum_mlp.predict_spectrum] evaluates the
    network at each value it is given: its caller supplies
    log-wavelengths. *)
Theorem C2_predict_spectrum :
  forall (W : weights) (p ws : list R),
    weights_ok W = true ->
    length p = 12%nat ->
    Spice.predict_spectrum W (vec p) (vec ws)
    = Ok (vec (map (fun w => flux W p (log10r w)) ws))
    /\ Spice.predict_spectrum W (vec p) (vec ws)
       = flatten <$> Spice.__predict_spectrum W (vec p)
                       (vec (map log10r ws))
    /\ SpectrumIntegrator.predict_spectrum W (vec p) (vec ws)
       = Ok (col (map (fun w => flux W p w) ws))
    /\ forall lw, model_apply W (vec p) (scalar lw) = Ok (vec [flux W p lw]).
Proof.
  intros W p ws Hok Hp. split; [|split; [|split]].
  - apply Spice_predict_spectrum_ok; assumption.
  - unfold Spice.predict_spectrum, log10. rewrite amap_vec. reflexivity.
  - apply SI_predict_spectrum_ok; assumption.
  - intros lw. apply model_apply_ok; assumption.
Qed.

Lemma C2_predict_spectrum_witness :
  Spice.predict_spectrum W0 (vec p_mid) (vec [4000; 4001])
  = Ok (vec [flux W0 p_mid (log10r 4000); flux W0 p_mid (log10r 4001)])
  /\ SpectrumIntegrator.predict_spectrum W0 (vec p_mid) (vec [3.6; 3.61])
     = Ok (col [flux W0 p_mid 3.6; flux W0 p_mid 3.61]).
Proof.
  destruct (C2_predict_spectrum W0 p_mid [4000; 4001] weights_ok_W0 eq_refl)
    as (Hspice & _).
  destruct (C2_predict_spectrum W0 p_mid [3.6; 3.61] weights_ok_W0 eq_refl)
    as (_ & _ & Hsi & _).
  cbn [map] in Hspice, Hsi. split; [exact Hspice|exact Hsi].
Defined.

(** C2 as stated fails in [spectrum_integrator.spectrum_mlp]: given the
    wavelength 4000 its [predict_spectrum] returns the network at 4000,
    which under the weights [W1] is 1/2, and not the network at
    log10(4000), which is below 1/2. *)
Lemma C2_counterexample :
  SpectrumIntegrator.predict_spectrum W1 (vec p_mid) (vec [4000])
  = Ok (col [flux W1 p_mid 4000])
  /\ flux W1 p_mid 4000 = 1 / 2
  /\ flux W1 p_mid (log10r 4000) < 1 / 2
  /\ SpectrumIntegrator.predict_spectrum W1 (vec p_mid) (vec [4000])
     <> Ok (col [flux W1 p_mid (log10r 4000)]).
Proof.
  assert (Hcode : flux W1 p_mid 4000 = 1 / 2).
  { rewrite flux_W1 by reflexivity.
    rewrite last_component_at_4000, !gelu_0, sigmoid_0. lra. }
  assert (Hclaim : flux W1 p_mid (log10r 4000) < 1 / 2).
  { rewrite flux_W1 by reflexivity.
    pose proof (sigmoid_pos _
      (gelu_pos _ (gelu_pos _ (gelu_pos _ last_component_at_log_4000)))).
    lra. }
  assert (Hrun : SpectrumIntegrator.predict_spectrum W1 (vec p_mid)
                   (vec [4000]) = Ok (col [flux W1 p_mid 4000])).
  { apply (SI_predict_spectrum_ok W1 weights_ok_W1 p_mid [4000]).
    reflexivity. }
  split; [exact Hrun|]. split; [exact Hcode|]. split; [exact Hclaim|].
  rewrite Hrun. clear Hrun.
  set (a := flux W1 p_mid 4000) in *.
  set (b := flux W1 p_mid (log10r 4000)) in *.
  clearbody a b. unfold col, vec. cbn [fmap list_fmap].
  intros [= Heq]. lra.
Qed.

(** * Further properties of the two modules *)

(** ** Arrays of any rank *)

Lemma ndarray_nested_ind (P : ndarray -> Prop) :
  (forall x, P (scalar x)) ->
  (forall rows, Forall P rows -> P (stack rows)) ->
  forall a, P a.
Proof.
  intros Hscalar Hstack. fix IH 1. intros [x|rows].
  - apply Hscalar.
  - apply Hstack. induction rows as [|r rows IHrows]; constructor.
    + apply IH.
    + exact IHrows.
Qed.

Lemma amap_ext (f g : R -> R) (a : ndarray) :
  (forall x, f x = g x) -> amap f a = amap g a.
Proof.
  intros Hfg. induction a as [x|rows IH] using ndarray_nested_ind.
  - cbn. rewrite Hfg. reflexivity.
  - cbn. f_equal. induction IH as [|r rows Hr _ IHrows]; [reflexivity|].
    cbn. rewrite Hr, IHrows. reflexivity.
Qed.

Lemma amap_id (a : ndarray) : amap (fun x => x) a = a.
Proof.
  induction a as [x|rows IH] using ndarray_nested_ind; [reflexivity|].
  cbn. f_equal. induction IH as [|r rows Hr _ IHrows]; [reflexivity|].
  cbn. rewrite Hr, IHrows. reflexivity.
Qed.

Lemma shape_amap (f : R -> R) (a : ndarray) : shape (amap f a) = shape a.
Proof.
  induction a as [x|rows IH] using ndarray_nested_ind; [reflexivity|].
  cbn [amap shape]. rewrite length_map, map_map.
  replace (map (fun r => shape (amap f r)) rows) with (map shape rows);
    [reflexivity|].
  induction IH as [|r rows Hr _ IHrows]; [reflexivity|].
  cbn. rewrite Hr, IHrows. reflexivity.
Qed.

Lemma entries_amap (f : R -> R) (a : ndarray) :
  entries (amap f a) = map f (entries a).
Proof.
  induction a as [x|rows IH] using ndarray_nested_ind; [reflexivity|].
  cbn [amap entries]. induction IH as [|r rows Hr _ IHrows]; [reflexivity|].
  cbn. rewrite map_app, Hr, IHrows. reflexivity.
Qed.

(** ** [redshift_wavelengths] and [redshift_wavelengths_vec] *)

(** X1. A radial velocity of zero leaves an array of wavelengths of any rank
    as it is, and every velocity keeps the shape of the array and the
    number and order of its entries. *)
Theorem X1_redshift_zero_and_shape :
  forall (a : ndarray) (v : R),
    Spice.redshift_wavelengths a 0 = a
    /\ shape (Spice.redshift_wavelengths a v) = shape a
    /\ entries (Spice.redshift_wavelengths a v)
       = map (fun w => w * (1 + v / c)) (entries a).
Proof.
  intros a v. unfold Spice.redshift_wavelengths. split; [|split].
  - rewrite <- (amap_id a) at 2. apply amap_ext. intros w.
    unfold Rdiv. rewrite Rmult_0_l, Rplus_0_r, Rmult_1_r. reflexivity.
  - apply shape_amap.
  - apply entries_amap.
Qed.

(** X3. For a velocity of at least -c the shift keeps a grid of
    non-negative wavelengths non-negative and leaves two wavelengths of a
    grid in their order; at the velocity -c, which nothing forbids, every
    wavelength becomes zero. *)
Theorem X3_redshift_order :
  forall (v : R) (ws : list R),
    - c <= v ->
    (Forall (fun w => 0 <= w) ws ->
       Forall (fun w => 0 <= w)
         (entries (Spice.redshift_wavelengths (vec ws) v)))
    /\ (forall i j wi wj,
          ws !! i = Some wi -> ws !! j = Some wj -> wi <= wj ->
          exists si sj,
            entries (Spice.redshift_wavelengths (vec ws) v) !! i = Some si
            /\ entries (Spice.redshift_wavelengths (vec ws) v) !! j = Some sj
            /\ si <= sj)
    /\ Spice.redshift_wavelengths (vec ws) (- c) = vec (map (fun _ => 0) ws).
Proof.
  intros v ws Hv. pose proof c_pos as Hc.
  assert (Hf : 0 <= 1 + v / c).
  { assert (Hq : -1 <= v / c); [|lra].
    apply (Rmult_le_reg_r c); [exact Hc|].
    unfold Rdiv. rewrite Rmult_assoc, Rinv_l by lra. lra. }
  unfold Spice.redshift_wavelengths. rewrite !amap_vec, entries_vec.
  split; [|split].
  - intros Hws. apply Forall_forall. intros s Hs.
    apply list_elem_of_In, in_map_iff in Hs as (w & <- & Hw).
    rewrite Forall_forall in Hws.
    apply Rmult_le_pos; [apply Hws, list_elem_of_In, Hw|exact Hf].
  - intros i j wi wj Hi Hj Hle.
    exists (wi * (1 + v / c)), (wj * (1 + v / c)).
    change (map (fun w => w * (1 + v / c)) ws)
      with ((fun w => w * (1 + v / c)) <$> ws).
    rewrite !list_lookup_fmap, Hi, Hj.
    split; [reflexivity|]. split; [reflexivity|].
    apply Rmult_le_compat_r; assumption.
  - f_equal. apply map_ext. intros w. field. lra.
Qed.

Lemma X3_redshift_order_witness :
  Forall (fun w => 0 <= w)
    (entries (Spice.redshift_wavelengths (vec [4000; 4001]) (-50))).
Proof.
  assert (Hv : - c <= -50) by (unfold c; lra).
  destruct (X3_redshift_order (-50) [4000; 4001] Hv) as (Hpos & _).
  apply Hpos. repeat constructor; lra.
Defined.

Lemma redshift_wavelengths_vec_ok (ws vs : list R) :
  Spice.redshift_wavelengths_vec (vec ws) (vec vs)
  = Ok (mat (map (fun v => map (fun w => w * (1 + v / c)) ws) vs)).
Proof.
  unfold Spice.redshift_wavelengths_vec.
  change (vec vs) with (stack (scalar <$> vs)).
  rewrite vmap2_None_0, mapM_fmap.
  rewrite (mapM_Ok_map _
             (fun v => vec (map (fun w => w * (1 + v / c)) ws))).
  - cbn [fmap result_fmap]. unfold mat. rewrite <- list_fmap_compose.
    reflexivity.
  - intros v' _. cbn [as_scalar]. unfold Spice.redshift_wavelengths.
    rewrite amap_vec. reflexivity.
Qed.

(** X4. [redshift_wavelengths_vec] on a grid of M wavelengths and K
    velocities returns the K-by-M array whose row k is the grid shifted by
    velocity k; a rank-0 velocity argument is refused. *)
Theorem X4_redshift_wavelengths_vec :
  forall (ws vs : list R) (v : R),
    Spice.redshift_wavelengths_vec (vec ws) (vec vs)
    = Ok (mat (map (fun v => map (fun w => w * (1 + v / c)) ws) vs))
    /\ is_matrix (length vs) (length ws)
         (mat (map (fun v => map (fun w => w * (1 + v / c)) ws) vs))
    /\ (forall k v', vs !! k = Some v' ->
          map (fun v => map (fun w => w * (1 + v / c)) ws) vs !! k
          = Some (entries (Spice.redshift_wavelengths (vec ws) v')))
    /\ Spice.redshift_wavelengths_vec (vec ws) (scalar v)
       = Raise (ShapeError "vmap: mapped argument of rank 0").
Proof.
  intros ws vs v. split; [|split; [|split]].
  - apply redshift_wavelengths_vec_ok.
  - eexists. split; [reflexivity|]. split; [apply length_map|].
    apply Forall_forall. intros r Hr.
    apply list_elem_of_In, in_map_iff in Hr as (v' & <- & _).
    apply length_map.
  - intros k v' Hk. rewrite list_lookup_fmap, Hk.
    cbn [fmap option_fmap option_map].
    unfold Spice.redshift_wavelengths. rewrite amap_vec, entries_vec.
    reflexivity.
  - reflexivity.
Qed.

(** ** The scaler and the encoders *)

(** X5. In binary32 the scaler is neither injective nor strictly
    increasing, and it can bring an argument from outside its range onto
    the end of the scaled range: the float32 next above the abundance
    maximum 3.0 scales to exactly 1.0, 2.5 and the float32 next above it
    scale to one value, and the abundance 1e-7 scales to 0.5, as the
    abundance 0 does. *)
Theorem X5_scale_binary32 :
  scaled_abundance (Ieee.succ Ieee.float32 (f32 30 1))
  = Some (ieee_one Ieee.float32)
  /\ SFltb (f32 30 1) (Ieee.succ Ieee.float32 (f32 30 1)) = true
  /\ scaled_abundance (f32 25 1)
     = scaled_abundance (Ieee.succ Ieee.float32 (f32 25 1))
  /\ SFltb (f32 25 1) (Ieee.succ Ieee.float32 (f32 25 1)) = true
  /\ scaled_abundance (f32 1 7) = scaled_abundance ieee_zero
  /\ scaled_abundance ieee_zero = Some (f32 5 1)
  /\ SFltb ieee_zero (f32 1 7) = true.
Proof. repeat split; vm_compute; reflexivity. Qed.

(** X7. With an abundance of zero the encoder returns the same vector for
    every recognized element: the element leaves no trace in the output. *)
Theorem X7_zero_abundance_hides_element :
  forall (teff logg vmic me : R) (e1 e2 : string),
    e1 ∈ OVERABUNDANCES -> e2 ∈ OVERABUNDANCES ->
    generate_spectrum_overabundance_params teff logg vmic me 0 e1
    = generate_spectrum_overabundance_params teff logg vmic me 0 e2
    /\ exists v,
         generate_spectrum_overabundance_params teff logg vmic me 0 e1
         = Ok (vec v)
         /\ drop 4 v = replicate 8 ((0 - -3.0) / (3.0 - -3.0)).
Proof.
  intros teff logg vmic me e1 e2 H1 H2.
  apply spec_slot_recognized in H1 as [i1 H1].
  apply spec_slot_recognized in H2 as [i2 H2].
  rewrite (generate_spectrum_overabundance_params_slot _ _ _ _ _ e1 i1 H1).
  rewrite (generate_spectrum_overabundance_params_slot _ _ _ _ _ e2 i2 H2).
  assert (Hz : forall e i, spec_slot e = Some i ->
                 at_set (zeros 8) i 0 = zeros 8).
  { intros e i Hi. apply spec_slot_inv in Hi. cbn in Hi.
    repeat (destruct Hi as [[= <- <-]|Hi]; [reflexivity|]). destruct Hi. }
  rewrite (Hz e1 i1 H1), (Hz e2 i2 H2).
  split; [reflexivity|]. eexists. split; reflexivity.
Qed.

Lemma X7_zero_abundance_hides_element_witness :
  generate_spectrum_overabundance_params 7500 4.0 2.0 (-0.5) 0 "Mn"
  = generate_spectrum_overabundance_params 7500 4.0 2.0 (-0.5) 0 "Hg".
Proof.
  assert (H1 : "Mn" ∈ OVERABUNDANCES) by (apply (bool_decide_unpack _); reflexivity).
  assert (H2 : "Hg" ∈ OVERABUNDANCES) by (apply (bool_decide_unpack _); reflexivity).
  destruct (X7_zero_abundance_hides_element 7500 4.0 2.0 (-0.5) "Mn" "Hg"
              H1 H2) as [Heq _].
  exact Heq.
Defined.

Lemma generate_vec_rows (teff logg vmic me : R) (rows : list ndarray)
    (element : string) :
  generate_spectrum_overabundance_params_vec teff logg vmic me (stack rows)
    element
  = stack <$> mapM (fun a =>
                      match as_scalar a with
                      | Some x =>
                          generate_spectrum_overabundance_params teff logg
                            vmic me x element
                      | None => Raise OffAnnotation
                      end) rows.
Proof.
  unfold generate_spectrum_overabundance_params_vec, vmap. cbn.
  rewrite (mapM_seq_rows _
             (fun a =>
                match as_scalar a with
                | Some x =>
                    generate_spectrum_overabundance_params teff logg vmic me
                      x element
                | None => Raise OffAnnotation
                end) (scalar 0) rows O); [reflexivity|].
  intros i Hi. reflexivity.
Qed.

(** X9. The batched encoder on K abundances and a recognized element
    returns the K-by-12 array whose row k is what the encoder returns for
    abundance k, in the order of the abundances. *)
Theorem X9_encoder_vec_rows :
  forall (teff logg vmic me : R) (abundances : list R) (element : string)
         (i : nat),
    spec_slot element = Some i ->
    let row a :=
      scaler ([log10r teff; logg; vmic; me] ++ at_set (zeros 8) i a) in
    generate_spectrum_overabundance_params_vec teff logg vmic me
      (vec abundances) element
    = Ok (mat (map row abundances))
    /\ is_matrix (length abundances) 12 (mat (map row abundances))
    /\ forall k a, abundances !! k = Some a ->
         map row abundances !! k = Some (row a)
         /\ generate_spectrum_overabundance_params teff logg vmic me a
              element = Ok (vec (row a)).
Proof.
  intros teff logg vmic me abundances element i Hi row.
  split; [|split].
  - unfold vec at 1. rewrite generate_vec_rows, mapM_fmap.
    rewrite (mapM_Ok_map _ (fun a => vec (row a))).
    + cbn [fmap result_fmap]. unfold mat. rewrite <- list_fmap_compose.
      reflexivity.
    + intros a _. cbn [as_scalar].
      apply generate_spectrum_overabundance_params_slot. exact Hi.
  - eexists. split; [reflexivity|]. split; [apply length_map|].
    apply Forall_forall. intros r Hr.
    apply list_elem_of_In, in_map_iff in Hr as (a & <- & _).
    unfold row. apply spec_slot_inv in Hi. cbn in Hi.
    repeat (destruct Hi as [[= <- <-]|Hi]; [reflexivity|]). destruct Hi.
  - intros k a Hk. split.
    + rewrite list_lookup_fmap, Hk. reflexivity.
    + apply generate_spectrum_overabundance_params_slot. exact Hi.
Qed.

Lemma X9_encoder_vec_rows_witness :
  generate_spectrum_overabundance_params_vec 7500 4.0 2.0 (-0.5)
    (vec [-1.0; 0; 2.0]) "Fe"
  = Ok (mat [scaler [log10r 7500; 4.0; 2.0; -0.5; 0; -1.0; 0; 0; 0; 0; 0; 0];
             scaler [log10r 7500; 4.0; 2.0; -0.5; 0; 0; 0; 0; 0; 0; 0; 0];
             scaler [log10r 7500; 4.0; 2.0; -0.5; 0; 2.0; 0; 0; 0; 0; 0; 0]]).
Proof.
  destruct (X9_encoder_vec_rows 7500 4.0 2.0 (-0.5) [-1.0; 0; 2.0] "Fe" 1
              eq_refl) as [Heq _].
  exact Heq.
Defined.

(** X10. The batched encoder raises the encoder's [ValueError] on an
    unrecognized element as soon as there is one abundance, and refuses an
    abundance argument of rank 0 whatever the element is. *)
Theorem X10_encoder_vec_errors :
  forall (teff logg vmic me a : R) (abundances : list R) (element : string),
    (element ∉ OVERABUNDANCES ->
       generate_spectrum_overabundance_params_vec teff logg vmic me
         (vec (a :: abundances)) element
       = Raise (ValueError element_error))
    /\ generate_spectrum_overabundance_params_vec teff logg vmic me
         (scalar a) element
       = Raise (ShapeError "vmap: mapped argument of rank 0").
Proof.
  intros teff logg vmic me a abundances element. split; [|reflexivity].
  intros Hnot. unfold vec. rewrite generate_vec_rows.
  cbn [fmap list_fmap].
  rewrite (mapM_Raise_head _ _ _ (ValueError element_error)); [reflexivity|].
  cbn [as_scalar].
  apply generate_spectrum_overabundance_params_unrecognized. exact Hnot.
Qed.

Lemma X10_encoder_vec_errors_witness :
  generate_spectrum_overabundance_params_vec 7500 4.0 2.0 (-0.5)
    (vec [1.0; 2.0]) "Xx"
  = Raise (ValueError element_error).
Proof.
  assert (Hx : "Xx" ∉ OVERABUNDANCES)
    by (apply (bool_decide_unpack _); reflexivity).
  apply (X10_encoder_vec_errors 7500 4.0 2.0 (-0.5) 1.0 [2.0] "Xx"). exact Hx.
Defined.

(** ** The frequency encoder for any periods and dimension *)

(** X11. For positive periods and any dimension, the encoding has
    [dimension] components, each in [-1, 1]; the encoding of 0 is zero, and
    the encoding of -x is the negated encoding of x.  The periods are taken
    positive because [jnp.log10] has no real value elsewhere. *)
Theorem X11_frequency_encoding_general :
  forall (x min_period max_period : R) (dimension : nat),
    0 < min_period -> 0 < max_period ->
    length (frequency_encoding x min_period max_period dimension) = dimension
    /\ Forall (fun y => -1 <= y <= 1)
         (frequency_encoding x min_period max_period dimension)
    /\ frequency_encoding 0 min_period max_period dimension
       = replicate dimension 0
    /\ frequency_encoding (- x) min_period max_period dimension
       = map Ropp (frequency_encoding x min_period max_period dimension).
Proof.
  intros x min_period max_period dimension _ _.
  split; [apply length_frequency_encoding|]. split; [|split].
  - unfold frequency_encoding. apply Forall_forall. intros y Hy.
    apply list_elem_of_In, in_map_iff in Hy as (p & <- & _).
    apply SIN_bound.
  - unfold frequency_encoding.
    rewrite <- (length_linspace (log10r min_period) (log10r max_period)
                  dimension) at 2.
    unfold logspace.
    induction (linspace (log10r min_period) (log10r max_period) dimension)
      as [|e l IH]; [reflexivity|].
    cbn [map length replicate]. rewrite Rmult_0_r, sin_0. f_equal. exact IH.
  - unfold frequency_encoding. rewrite map_map. apply map_ext. intros p.
    rewrite <- sin_neg. f_equal. ring.
Qed.

Lemma X11_frequency_encoding_general_witness :
  length (frequency_encoding 3.6 1e-7 0.05 64) = 64%nat
  /\ frequency_encoding 0 1e-7 0.05 64 = replicate 64 0.
Proof.
  assert (Hmin : 0 < 1e-7) by lra. assert (Hmax : 0 < 0.05) by lra.
  destruct (X11_frequency_encoding_general 3.6 1e-7 0.05 64 Hmin Hmax)
    as (Hlen & _ & Hzero & _).
  split; [exact Hlen|exact Hzero].
Defined.

(** X12. The ends of the encoder: with dimension 0 the encoding is empty;
    with dimension 1 the one period is [min_period] and [max_period] plays
    no part; from dimension 2 on the first period is [min_period] and the
    last is [max_period]. *)
Theorem X12_frequency_encoding_ends :
  forall (x min_period max_period : R) (d : nat),
    0 < min_period -> 0 < max_period ->
    frequency_encoding x min_period max_period 0 = []
    /\ frequency_encoding x min_period max_period 1
       = [sin (2 * PI / min_period * x)]
    /\ frequency_encoding x min_period max_period (S (S d)) !! O
       = Some (sin (2 * PI / min_period * x))
    /\ frequency_encoding x min_period max_period (S (S d)) !! S d
       = Some (sin (2 * PI / max_period * x)).
Proof.
  intros x min_period max_period d Hmin Hmax.
  split; [reflexivity|]. split; [|split].
  - unfold frequency_encoding, logspace, linspace. cbn [map].
    rewrite Rpower_10_log10r by exact Hmin. reflexivity.
  - unfold frequency_encoding, logspace.
    destruct (linspace_ends (log10r min_period) (log10r max_period) d)
      as [H0 _].
    rewrite !list_lookup_fmap, H0. cbn [fmap option_fmap option_map].
    rewrite Rpower_10_log10r by exact Hmin. reflexivity.
  - unfold frequency_encoding, logspace.
    destruct (linspace_ends (log10r min_period) (log10r max_period) d)
      as [_ H1].
    rewrite !list_lookup_fmap, H1. cbn [fmap option_fmap option_map].
    rewrite Rpower_10_log10r by exact Hmax. reflexivity.
Qed.

Lemma X12_frequency_encoding_ends_witness :
  frequency_encoding 3.6 1e-7 0.05 1 = [sin (2 * PI / 1e-7 * 3.6)]
  /\ frequency_encoding 3.6 1e-7 0.05 64 !! 63%nat
     = Some (sin (2 * PI / 0.05 * 3.6)).
Proof.
  assert (Hmin : 0 < 1e-7) by lra. assert (Hmax : 0 < 0.05) by lra.
  destruct (X12_frequency_encoding_ends 3.6 1e-7 0.05 62 Hmin Hmax)
    as (_ & H1 & _ & Hlast).
  split; [exact H1|exact Hlast].
Defined.

(** ** The network *)

Lemma sigmoid_bounds (z : R) : 0 < sigmoid z < 1.
Proof.
  unfold sigmoid. pose proof (exp_pos (- z)) as He. split.
  - apply Rdiv_lt_0_compat; lra.
  - apply Rlt_div_above; lra.
Qed.

Lemma flux_bounds (W : weights) (p : list R) (lw : R) :
  weights_ok W = true -> 0 < flux W p lw < 1.
Proof.
  intros Hok.
  destruct W as [|d0 [|d1 [|d2 [|d3 [|d4 W]]]]]; try discriminate Hok.
  unfold flux. cbv zeta.
  match goal with |- context [sigmoid ?z] =>
    pose proof (sigmoid_bounds z) as Hs end.
  lra.
Qed.

(** X13. For weights of the declared shapes, twelve parameters and any
    log-wavelength the network returns a 1-d array of one value, and the
    value lies in the range [0, 1] of its docstring. *)
Theorem X13_network_range :
  forall (W : weights) (p : list R) (lw : R),
    weights_ok W = true -> length p = 12%nat ->
    exists y,
      model_apply W (vec p) (scalar lw) = Ok (vec [y])
      /\ shape (vec [y]) = Some [1%nat]
      /\ 0 <= y <= 1.
Proof.
  intros W p lw Hok Hp. exists (flux W p lw).
  split; [apply model_apply_ok; assumption|].
  split; [reflexivity|]. pose proof (flux_bounds W p lw Hok). lra.
Qed.

Lemma X13_network_range_witness :
  exists y,
    model_apply W0 (vec p_mid) (scalar 3.6) = Ok (vec [y]) /\ 0 <= y <= 1.
Proof.
  destruct (X13_network_range W0 p_mid 3.6 weights_ok_W0 eq_refl)
    as (y & Hy & _ & Hrange).
  exists y. split; [exact Hy|exact Hrange].
Defined.

(** X14. The network refuses a parameter vector whose length is not 12
    (the first dense layer is stored for 76 inputs) and a parameter array
    of rank 2 (it cannot be stacked with the encoding). *)
Theorem X14_network_wrong_parameters :
  forall (W : weights) (p r : list R) (rows : list (list R)) (lw : R),
    weights_ok W = true ->
    (length p <> 12%nat ->
       model_apply W (vec p) (scalar lw)
       = Raise (ShapeError "Dense: ScopeParamShapeError"))
    /\ model_apply W (mat (r :: rows)) (scalar lw)
       = Raise (ShapeError "hstack: ranks differ").
Proof.
  intros W p r rows lw Hok. split; [|reflexivity].
  intros Hp.
  destruct W as [|d0 [|d1 [|d2 [|d3 [|d4 W]]]]]; try discriminate Hok.
  unfold weights_ok in Hok.
  apply andb_true_iff in Hok as [Hok _].
  apply andb_true_iff in Hok as [Hok _].
  apply andb_true_iff in Hok as [H0 _].
  unfold model_apply, SpectrumMLP, hstack. cbn [as_scalar vec].
  change (stack (scalar <$> p)) with (vec p). rewrite as_vector_vec.
  cbn [mbind result_bind]. unfold architecture.
  rewrite SpectrumMLP_layers_4.
  rewrite (Dense_wrong_inputs 512 d0 _ 76 H0); [reflexivity|].
  rewrite length_app, length_frequency_encoding. lia.
Qed.

Lemma X14_network_wrong_parameters_witness :
  model_apply W0 (vec [0.5; 0.5; 0.5]) (scalar 3.6)
  = Raise (ShapeError "Dense: ScopeParamShapeError").
Proof.
  apply (X14_network_wrong_parameters W0 [0.5; 0.5; 0.5] [] [] 3.6
           weights_ok_W0).
  cbn. lia.
Defined.

(** ** The predictors *)

(** X15. On a grid of positive wavelengths, where [jnp.log10] has a real
    value, [spice]'s [predict_spectrum] returns one flux per wavelength, in
    the order of the wavelengths and each in [0, 1]; an empty grid gives an
    empty spectrum, and a wavelength argument of rank 0 is refused. *)
Theorem X15_spice_predict_spectrum_values :
  forall (W : weights) (p ws : list R) (w : R),
    weights_ok W = true -> length p = 12%nat ->
    Forall (fun w => 0 < w) ws ->
    (exists ys,
       Spice.predict_spectrum W (vec p) (vec ws) = Ok (vec ys)
       /\ length ys = length ws
       /\ Forall (fun y => 0 <= y <= 1) ys
       /\ forall j wj, ws !! j = Some wj ->
            exists y, ys !! j = Some y
                      /\ model_apply W (vec p) (scalar (log10r wj))
                         = Ok (vec [y]))
    /\ Spice.predict_spectrum W (vec p) (vec []) = Ok (vec [])
    /\ Spice.predict_spectrum W (vec p) (scalar w)
       = Raise (ShapeError "vmap: mapped argument of rank 0").
Proof.
  intros W p ws w Hok Hp _. split; [|split; [|reflexivity]].
  - exists (map (fun w => flux W p (log10r w)) ws).
    split; [apply Spice_predict_spectrum_ok; assumption|].
    split; [apply length_map|]. split.
    + apply Forall_forall. intros y Hy.
      apply list_elem_of_In, in_map_iff in Hy as (w' & <- & _).
      pose proof (flux_bounds W p (log10r w') Hok). lra.
    + intros j wj Hj. eexists. split.
      * rewrite list_lookup_fmap, Hj. reflexivity.
      * apply model_apply_ok; assumption.
  - apply (Spice_predict_spectrum_ok W Hok p [] Hp).
Qed.

Lemma X15_spice_predict_spectrum_values_witness :
  exists ys,
    Spice.predict_spectrum W0 (vec p_mid) (vec [4000; 4001]) = Ok (vec ys)
    /\ length ys = 2%nat /\ Forall (fun y => 0 <= y <= 1) ys.
Proof.
  assert (Hws : Forall (fun w => 0 < w) [4000; 4001])
    by (repeat constructor; lra).
  destruct (X15_spice_predict_spectrum_values W0 p_mid [4000; 4001] 4000
              weights_ok_W0 eq_refl Hws)
    as ((ys & Hys & Hlen & Hrange & _) & _).
  exists ys. split; [exact Hys|]. split; [exact Hlen|exact Hrange].
Defined.

(** X16. [spice]'s [predict_spectra] raises when the numbers of parameter
    sets and of wavelength grids differ, and when either argument has
    rank 0; it returns no rows in these cases. *)
Theorem X16_spice_predict_spectra_errors :
  forall (W : weights) (P G : list ndarray) (x : R),
    (length P <> length G ->
       Spice.predict_spectra W (stack P) (stack G)
       = Raise (ShapeError "vmap: inconsistent sizes of the mapped axes"))
    /\ Spice.predict_spectra W (scalar x) (stack G)
       = Raise (ShapeError "vmap: mapped argument of rank 0")
    /\ Spice.predict_spectra W (stack P) (scalar x)
       = Raise (ShapeError "vmap: mapped argument of rank 0").
Proof.
  intros W P G x. split; [|split; reflexivity].
  intros Hlen. unfold Spice.predict_spectra. apply vmap2_0_0_sizes.
  exact Hlen.
Qed.

Lemma X16_spice_predict_spectra_errors_witness :
  Spice.predict_spectra W0 (mat [p_mid; p_mid; p_mid])
    (mat [[4000; 4001]; [5000; 5001]])
  = Raise (ShapeError "vmap: inconsistent sizes of the mapped axes").
Proof.
  apply (X16_spice_predict_spectra_errors W0
           (vec <$> [p_mid; p_mid; p_mid])
           (vec <$> [[4000; 4001]; [5000; 5001]]) 0).
  cbn. lia.
Defined.

Lemma log10r_1 : log10r 1 = 0.
Proof. unfold log10r. rewrite ln_1. unfold Rdiv. apply Rmult_0_l. Qed.

Lemma zip_with_replicate_r_map {A B C : Type} (f : A -> B -> C) (b : B)
    (l : list A) :
  zip_with f l (replicate (length l) b) = map (fun a => f a b) l.
Proof.
  induction l as [|a l IH]; [reflexivity|]. cbn. rewrite IH. reflexivity.
Qed.

(** X18. A velocity of zero changes nothing:
    [predict_spectrum_with_rot_velocity] at velocity 0 is
    [predict_spectrum], for arrays of any rank, and
    [predict_spectra_with_rot_velocity] with all velocities 0 is
    [predict_spectra]. *)
Theorem X18_zero_velocity :
  forall (W : weights) (params log_wave : ndarray),
    SpectrumIntegrator.predict_spectrum_with_rot_velocity W params log_wave 0
    = SpectrumIntegrator.predict_spectrum W params log_wave
    /\ forall (P : list (list R)) (lws : list R),
         weights_ok W = true ->
         Forall (fun p => length p = 12%nat) P ->
         SpectrumIntegrator.predict_spectra_with_rot_velocity W (mat P)
           (vec lws) (vec (replicate (length P) 0))
         = SpectrumIntegrator.predict_spectra W (mat P) (vec lws).
Proof.
  intros W params log_wave.
  assert (Hshift : log10r (1 + 0 / c) = 0).
  { replace (1 + 0 / c) with 1 by (unfold Rdiv; rewrite Rmult_0_l; lra).
    apply log10r_1. }
  split.
  - unfold SpectrumIntegrator.predict_spectrum_with_rot_velocity.
    rewrite Hshift.
    rewrite (amap_ext _ (fun x => x)) by (intros x; apply Rplus_0_r).
    rewrite amap_id. reflexivity.
  - intros P lws Hok HP.
    rewrite SI_predict_spectra_with_rot_velocity_ok
      by (try assumption; apply length_replicate).
    rewrite SI_predict_spectra_ok by assumption.
    apply f_equal, f_equal.
    rewrite zip_with_replicate_r_map. apply map_ext. intros p.
    apply map_ext. intros lw. rewrite Hshift, Rplus_0_r. reflexivity.
Qed.

(** X19. The velocity-aware batched predictor and the driver built on it
    raise when the numbers of parameter sets and of velocities differ, and
    when the rotation map has rank 0; no row is returned. *)
Theorem X19_velocity_batch_errors :
  forall (W : weights) (P vs : list ndarray) (log_wave : ndarray)
         (wave_min wave_max v : R) (n : nat),
    (length P <> length vs ->
       SpectrumIntegrator.predict_spectra_with_rot_velocity W (stack P)
         log_wave (stack vs)
       = Raise (ShapeError "vmap: inconsistent sizes of the mapped axes")
       /\ SpectrumIntegrator.spectra_prediction_function W wave_min wave_max
            n (stack P) (stack vs)
          = Raise (ShapeError "vmap: inconsistent sizes of the mapped axes"))
    /\ SpectrumIntegrator.predict_spectra_with_rot_velocity W (stack P)
         log_wave (scalar v)
       = Raise (ShapeError "vmap: mapped argument of rank 0")
    /\ SpectrumIntegrator.spectra_prediction_function W wave_min wave_max n
         (stack P) (scalar v)
       = Raise (ShapeError "vmap: mapped argument of rank 0").
Proof.
  intros W P vs log_wave wave_min wave_max v n.
  split; [|split; reflexivity].
  intros Hlen. split.
  - unfold SpectrumIntegrator.predict_spectra_with_rot_velocity.
    apply vmap3_0_None_0_sizes. exact Hlen.
  - unfold SpectrumIntegrator.spectra_prediction_function,
      SpectrumIntegrator.predict_spectra_with_rot_velocity.
    rewrite vmap3_0_None_0_sizes by exact Hlen. reflexivity.
Qed.

Lemma X19_velocity_batch_errors_witness :
  SpectrumIntegrator.predict_spectra_with_rot_velocity W0
    (mat [p_mid; p_mid]) (vec [3.6; 3.61]) (vec [10; -10; 0])
  = Raise (ShapeError "vmap: inconsistent sizes of the mapped axes").
Proof.
  apply (X19_velocity_batch_errors W0 (vec <$> [p_mid; p_mid])
           (scalar <$> [10; -10; 0]) (vec [3.6; 3.61]) 4000 4010 0 3).
  cbn. lia.
Defined.

(** X20. For positive wavelength bounds and velocities at least 1 km/s
    above -c, where every [jnp.log10] of the driver has a real value, every
    value that the function returned by [spectra_prediction_function]
    gives is a line depth in [0, 1], and it is one minus the value that
    [predict_spectra_with_rot_velocity] returns at the same place. *)
Theorem X20_depths :
  forall (W : weights) (wave_min wave_max : R) (n : nat)
         (P : list (list R)) (vs : list R),
    weights_ok W = true ->
    (0 < n)%nat ->
    Forall (fun p => length p = 12%nat) P ->
    length vs = length P ->
    0 < wave_min -> 0 < wave_max ->
    Forall (fun v => 1 - c <= v) vs ->
    exists depths : list (list R),
      SpectrumIntegrator.spectra_prediction_function W wave_min wave_max n
        (mat P) (vec vs) = Ok (mat depths)
      /\ Forall (Forall (fun d => 0 <= d <= 1)) depths
      /\ SpectrumIntegrator.predict_spectra_with_rot_velocity W (mat P)
           (vec (linspace (log10r wave_min) (log10r wave_max) n)) (vec vs)
         = Ok (cube (map (map (fun d => 1 - d)) depths)).
Proof.
  intros W wave_min wave_max n P vs Hok Hn HP Hlen _ _ _.
  set (log_wave := linspace (log10r wave_min) (log10r wave_max) n).
  set (fluxes := zip_with
                   (fun p v =>
                      map (fun lw => flux W p (lw + log10r (1 + v / c)))
                        log_wave) P vs).
  assert (Hrun : SpectrumIntegrator.predict_spectra_with_rot_velocity W
                   (mat P) (vec log_wave) (vec vs) = Ok (cube fluxes))
    by (apply SI_predict_spectra_with_rot_velocity_ok; assumption).
  assert (Hrows : Forall (fun r => length r = n) fluxes).
  { apply Forall_forall. intros r Hr.
    apply elem_of_zip_with in Hr as (p & v & -> & _).
    rewrite length_map. apply length_linspace. }
  exists (map (map (fun y => 1 - y)) fluxes). split; [|split].
  - unfold SpectrumIntegrator.spectra_prediction_function.
    fold log_wave. rewrite Hrun. cbn [mbind result_bind].
    rewrite amap_cube. apply reshape_rows_cube; [exact Hn|].
    apply Forall_forall. intros r Hr.
    apply list_elem_of_In, in_map_iff in Hr as (r' & <- & Hr').
    rewrite length_map. rewrite Forall_forall in Hrows.
    apply Hrows, list_elem_of_In, Hr'.
  - apply Forall_forall. intros r Hr.
    apply list_elem_of_In, in_map_iff in Hr as (r' & <- & Hr').
    apply Forall_forall. intros d Hd.
    apply list_elem_of_In, in_map_iff in Hd as (y & <- & Hy).
    apply list_elem_of_In, elem_of_zip_with in Hr' as (p & v & -> & _).
    apply in_map_iff in Hy as (lw & <- & _).
    pose proof (flux_bounds W p (lw + log10r (1 + v / c)) Hok). lra.
  - rewrite Hrun. apply f_equal, f_equal.
    rewrite map_map. rewrite <- (map_id fluxes) at 1.
    apply map_ext. intros r. rewrite map_map.
    rewrite <- (map_id r) at 1. apply map_ext. intros y. lra.
Qed.

Lemma X20_depths_witness :
  exists depths : list (list R),
    SpectrumIntegrator.spectra_prediction_function W0 4000 4010 3
      (mat [p_mid; p_mid]) (vec [10; -10]) = Ok (mat depths)
    /\ Forall (Forall (fun d => 0 <= d <= 1)) depths.
Proof.
  assert (HP : Forall (fun p : list R => length p = 12%nat) [p_mid; p_mid])
    by (repeat constructor).
  assert (Hn : (0 < 3)%nat) by lia.
  assert (Hmin : 0 < 4000) by lra. assert (Hmax : 0 < 4010) by lra.
  assert (Hvs : Forall (fun v => 1 - c <= v) [10; -10])
    by (repeat constructor; unfold c; lra).
  destruct (X20_depths W0 4000 4010 3 [p_mid; p_mid] [10; -10] weights_ok_W0
              Hn HP eq_refl Hmin Hmax Hvs) as (depths & Hrun & Hrange & _).
  exists depths. split; [exact Hrun|exact Hrange].
Defined.
